(** * eccrypto, browser implementation: ECIES over secp256k1

    A shallow embedding of [browser.js] and the properties of its
    encrypt/decrypt pipeline, key agreement and input validation.

    The module composes three providers that it does not define: the
    [elliptic] curve engine, the WebCrypto [subtle] object and the host's
    random source.  They are taken as records of operations ([Elliptic],
    [SubtleCrypto], [Host]); what the pipeline needs from them is stated as
    laws ([EllipticLaws], [SubtleLaws]) and a small reference host that
    satisfies the laws is built at the end of the definitions. *)

From Stdlib Require Import String Strings.Byte.
From Stdlib Require Import List NArith ZArith Zdivisibility Lia Bool Arith.
Import ListNotations.

Set Implicit Arguments.
Local Open Scope nat_scope.
Local Open Scope list_scope.

(** ** Byte buffers *)

(** A [Buffer] (a [Uint8Array]): a sequence of octets. *)
Definition bytes := list byte.

(** [new Buffer(x)] and [new Buffer(new Uint8Array(x))] copy the octets. *)
Definition Buffer (b : bytes) : bytes := b.

(** [Buffer.concat(list)]. *)
Definition Buffer_concat (l : list bytes) : bytes := List.concat l.

(** [buf.slice(start, end)] and [buf.slice(start)], for indices that are not
    negative (the only ones the source uses); out of range they clamp. *)
Definition slice (buf : bytes) (start stop : nat) : bytes :=
  firstn (stop - start) (skipn start buf).

Definition slice_from (buf : bytes) (start : nat) : bytes := skipn start buf.

(** [buf[0] === v]: an empty buffer has no element 0 ([undefined]). *)
Definition first_byte_is (buf : bytes) (v : byte) : bool :=
  match buf with
  | [] => false
  | b :: _ => Byte.eqb b v
  end.

Definition byte_of_N (n : N) : byte :=
  match Byte.of_N (n mod 256) with
  | Some b => b
  | None => x00
  end.

(** ** Big numbers (bn.js, the number type of [elliptic]) *)

(** [new BN(buffer)]: the octets read as a big-endian natural number. *)
Definition BN_of_bytes (b : bytes) : N :=
  fold_left (fun acc x => (acc * 256 + Byte.to_N x)%N) b 0%N.

(** [bn.byteLength()]: the number of octets of the number, 0 for zero. *)
Definition BN_byteLength (n : N) : nat := N.to_nat ((N.size n + 7) / 8).

(** The loop of [toArray]: peel the low octet ([andln(0xff)]), shift right by
    8 ([iushrn(8)]), write from the end of the array towards its start; it
    stops when the rest is zero. *)
Fixpoint toArray_loop (fuel : nat) (q : N) (res : bytes) : bytes :=
  match fuel with
  | O => res
  | S fuel' =>
      if (q =? 0)%N then res
      else toArray_loop fuel' (N.shiftr q 8) (byte_of_N (N.land q 255) :: res)
  end.

(** Modelled from the spec: [BN.prototype.toArray] belongs to bn.js, a
    dependency of [elliptic] that is not part of the repository's sources.
    The spec describes the result of [Px.toArray()] as a "variable-length
    big-endian integer bytes (not fixed-width; not zero-padded)": the array
    has [byteLength] octets and at least one (zero is the single octet 0). *)
Definition BN_toArray (n : N) : bytes :=
  if (n =? 0)%N then [x00] else toArray_loop (BN_byteLength n) n [].

(** ** Errors and results *)

(** What JavaScript code throws, or rejects a promise with. [Error] is the
    plain [new Error(message)] of [assert] and of a bad signature; the other
    two are what the providers raise. *)
Inductive error : Type :=
| Error (message : string)
| TypeError (message : string)
| DOMException (name : string).

Inductive result (A : Type) : Type :=
| Ok (a : A)
| Err (e : error).

Arguments Ok {A} a.
Arguments Err {A} e.

Definition is_ok {A} (r : result A) : bool :=
  match r with Ok _ => true | Err _ => false end.

(** [assert(condition, message)] throws [new Error(message || "Assertion
    failed")]; an empty message is falsy. *)
Definition assert (condition : bool) (message : string) : result unit :=
  if condition then Ok tt
  else Err (Error (if String.eqb message "" then "Assertion failed"%string
                   else message)).

(** ** The providers *)

(** *** WebCrypto *)

Inductive algorithm : Type := AES_CBC | HMAC_SHA256.
Inductive key_usage : Type := UEncrypt | UDecrypt | USign | UVerify.

(** A [CryptoKey]: the handle [importKey("raw", ...)] returns. *)
Record CryptoKey : Type := mkCryptoKey {
  key_algorithm : algorithm;
  key_usage_of : key_usage;
  key_handle : bytes
}.

(** The methods of [subtle] the module calls, each with the arguments the
    source passes.  [subtle_digest] is [digest({name: "SHA-512"}, msg)];
    [subtle_importKey alg key usage] is
    [importKey("raw", key, alg, false, [usage])]; [subtle_encrypt iv k data]
    is [encrypt({name: "AES-CBC", iv: iv}, k, data)], and likewise
    [subtle_decrypt]; [subtle_sign k msg] and [subtle_verify k sig msg] are
    the HMAC calls.  A rejected promise is [Err]. *)
Record SubtleCrypto : Type := mkSubtle {
  subtle_digest : bytes -> result bytes;
  subtle_importKey : algorithm -> bytes -> key_usage -> result CryptoKey;
  subtle_encrypt : bytes -> CryptoKey -> bytes -> result bytes;
  subtle_decrypt : bytes -> CryptoKey -> bytes -> result bytes;
  subtle_sign : CryptoKey -> bytes -> result bytes;
  subtle_verify : CryptoKey -> bytes -> bytes -> result bool
}.

(** *** The curve engine *)

(** [new EC("secp256k1")]: the points of the curve with the base point, the
    order of the group, scalar multiplication, the affine X coordinate
    ([getX], which fails at the point at infinity), the encoding of
    [getPublic("arr")], the decoding of [keyFromPublic], and ECDSA. *)
Record Elliptic : Type := mkElliptic {
  point : Type;
  ec_n : N;
  ec_g : point;
  point_mul : point -> N -> point;
  point_getX : point -> result N;
  point_encode : point -> result bytes;
  ec_decodePoint : bytes -> result point;
  ec_sign : bytes -> bytes -> result bytes;
  ec_verify : bytes -> bytes -> bytes -> result bool
}.

(** *** The host *)

(** The globals of the module: [ec], [subtle] (which is [undefined] when
    the browser has no WebCrypto) and the random source behind
    [window.crypto.getRandomValues], a tape of octets read from a cursor. *)
Record Host : Type := mkHost {
  ec : Elliptic;
  subtle : option SubtleCrypto;
  entropy : nat -> byte
}.

(** ** Effects *)

(** Every call the module makes to a provider, with what came back. *)
Inductive event : Type :=
| GetRandomValues (out : bytes)
| EcKeyFromPrivate (priv : bytes)
| EcKeyFromPublic (pub : bytes) (ok : bool)
| EcGetPublic (res : result bytes)
| EcDerive (res : result N)
| EcSign (msg priv : bytes) (res : result bytes)
| EcVerify (msg sig pub : bytes) (res : result bool)
| SubtleDigest (msg : bytes) (res : result bytes)
| SubtleImportKey (alg : algorithm) (key : bytes) (usage : key_usage)
    (res : result CryptoKey)
| SubtleEncrypt (iv : bytes) (key : CryptoKey) (data : bytes)
    (res : result bytes)
| SubtleDecrypt (iv : bytes) (key : CryptoKey) (data : bytes)
    (res : result bytes)
| SubtleSign (key : CryptoKey) (msg : bytes) (res : result bytes)
| SubtleVerify (key : CryptoKey) (sig msg : bytes) (res : result bool).

(** A computation reads the entropy tape from a cursor, makes calls to the
    providers and either returns or throws. *)
Definition M (A : Type) : Type := nat -> list event * nat * result A.

Definition ret {A} (a : A) : M A := fun c => ([], c, Ok a).

Definition throw {A} (e : error) : M A := fun c => ([], c, Err e).

Definition bind {A B} (m : M A) (k : A -> M B) : M B :=
  fun c =>
    match m c with
    | (ev, c', Ok a) =>
        match k a c' with
        | (ev', c'', r) => (ev ++ ev', c'', r)
        end
    | (ev, c', Err e) => (ev, c', Err e)
    end.

Declare Scope js_scope.
Delimit Scope js_scope with js.
Notation "x <- m ;; k" := (bind m (fun x => k))
  (at level 100, m at next level, right associativity) : js_scope.
Notation "m ;;; k" := (bind m (fun _ => k))
  (at level 100, right associativity) : js_scope.
Local Open Scope js_scope.

(** A pure step that may throw. *)
Definition lift {A} (r : result A) : M A := fun c => ([], c, r).

(** A call to a provider: the call is recorded with its result. *)
Definition call {A} (r : result A) (e : result A -> event) : M A :=
  fun c => ([e r], c, r).

Definition events_of {A} (m : M A) (c : nat) : list event := fst (fst (m c)).
Definition cursor_of {A} (m : M A) (c : nat) : nat := snd (fst (m c)).
Definition result_of {A} (m : M A) (c : nat) : result A := snd (m c).

(** *** Promises *)

(** A promise is the computation that settles it: [Ok] fulfils, [Err]
    rejects.  [new Promise(executor)] turns what the executor throws into a
    rejection, and [p.then(f)] runs [f] on the value and adopts what it
    returns; a throw inside [f] rejects.  Both are [bind] on [M]. *)
Definition Promise (A : Type) : Type := M A.

Definition new_Promise {A} (executor : M A) : Promise A := executor.

Definition then_ {A B} (p : Promise A) (f : A -> M B) : Promise B := bind p f.

(** What calling a function of the asynchronous API does before anything is
    deferred: it throws, or it returns a promise. *)
Inductive completion (A : Type) : Type :=
| Throws (e : error)
| Returns (p : Promise A).

Arguments Throws {A} e.
Arguments Returns {A} p.

(** Using a completion inside an executor or a [then] callback: a throw
    rejects the enclosing promise, a returned promise is adopted. *)
Definition settle {A} (c : completion A) : M A :=
  match c with
  | Throws e => throw e
  | Returns p => p
  end.

(** [f(...).then(g)] as an expression: if [f] throws there is no promise. *)
Definition completion_then {A B} (c : completion A) (f : A -> M B)
  : completion B :=
  match c with
  | Throws e => Throws e
  | Returns p => Returns (then_ p f)
  end.

(** ** The module *)

Inductive aes_op : Type := OpEncrypt | OpDecrypt.

Definition usage_of_op (op : aes_op) : key_usage :=
  match op with OpEncrypt => UEncrypt | OpDecrypt => UDecrypt end.

(** The [opts] argument of [encrypt]; an absent property is [None]. *)
Record Options : Type := mkOptions {
  opt_ephemPrivateKey : option bytes;
  opt_iv : option bytes
}.

(** [{}]. *)
Definition no_options : Options := mkOptions None None.

(** [opts || {}]. *)
Definition options_or_default (opts : option Options) : Options :=
  match opts with
  | Some o => o
  | None => no_options
  end.

(** What [encrypt] resolves to and [decrypt] takes as [opts]. *)
Record Envelope : Type := mkEnvelope {
  iv : bytes;
  ephemPublicKey : bytes;
  ciphertext : bytes;
  mac : bytes
}.

(** [size] octets of the tape from the cursor on: what
    [getRandomValues] writes into a fresh array of that size. *)
Definition tape_read (host : Host) (cursor size : nat) : bytes :=
  map (entropy host) (seq cursor size).

Section Browser.

Variable host : Host.

(** [x || y] on an optional buffer: a buffer is an object, hence truthy
    whatever its length. *)
Definition or_else (x : option bytes) (y : M bytes) : M bytes :=
  match x with
  | Some b => ret b
  | None => y
  end.

Definition randomBytes (size : nat) : M bytes :=
  fun c =>
    let arr := tape_read host c size in
    ([GetRandomValues arr], c + size, Ok (Buffer arr)).

(** A method call on [subtle]; on [undefined] it is a [TypeError]. *)
Definition with_subtle {A} (k : SubtleCrypto -> M A) : M A :=
  match subtle host with
  | Some s => k s
  | None => throw (TypeError "Cannot read properties of undefined")
  end.

Definition sha512 (msg : bytes) : Promise bytes :=
  with_subtle (fun s =>
    then_ (call (subtle_digest s msg) (SubtleDigest msg))
          (fun hash => ret (Buffer hash))).

(** [subtle[op](encAlgorithm, cryptoKey, data)]. *)
Definition subtle_op (s : SubtleCrypto) (op : aes_op)
    (iv : bytes) (cryptoKey : CryptoKey) (data : bytes) : M bytes :=
  match op with
  | OpEncrypt =>
      call (subtle_encrypt s iv cryptoKey data) (SubtleEncrypt iv cryptoKey data)
  | OpDecrypt =>
      call (subtle_decrypt s iv cryptoKey data) (SubtleDecrypt iv cryptoKey data)
  end.

Definition getAes (op : aes_op) (iv key data : bytes) : Promise bytes :=
  with_subtle (fun s =>
    let keyp :=
      call (subtle_importKey s AES_CBC key (usage_of_op op))
           (SubtleImportKey AES_CBC key (usage_of_op op)) in
    then_ (then_ keyp (fun cryptoKey => subtle_op s op iv cryptoKey data))
          (fun result => ret (Buffer result))).

Definition aesCbcEncrypt : bytes -> bytes -> bytes -> Promise bytes :=
  getAes OpEncrypt.
Definition aesCbcDecrypt : bytes -> bytes -> bytes -> Promise bytes :=
  getAes OpDecrypt.

Definition hmacSha256Sign (key msg : bytes) : Promise bytes :=
  with_subtle (fun s =>
    let keyp :=
      call (subtle_importKey s HMAC_SHA256 key USign)
           (SubtleImportKey HMAC_SHA256 key USign) in
    then_ (then_ keyp (fun cryptoKey =>
             call (subtle_sign s cryptoKey msg) (SubtleSign cryptoKey msg)))
          (fun sig => ret (Buffer sig))).

Definition hmacSha256Verify (key msg sig : bytes) : Promise bool :=
  with_subtle (fun s =>
    let keyp :=
      call (subtle_importKey s HMAC_SHA256 key UVerify)
           (SubtleImportKey HMAC_SHA256 key UVerify) in
    then_ keyp (fun cryptoKey =>
      call (subtle_verify s cryptoKey sig msg) (SubtleVerify cryptoKey sig msg))).

(** *** The calls into [elliptic] *)

(** [ec.keyFromPrivate(priv)]: a key pair holding the scalar [new BN(priv)]. *)
Definition ec_keyFromPrivate (priv : bytes) : M N :=
  fun c => ([EcKeyFromPrivate priv], c, Ok (BN_of_bytes priv)).

(** Modelled from the spec: [KeyPair.getPublic("arr")] is code of
    [elliptic]; the spec has it compute "the curve point privateKey * G"
    and return its encoding. *)
Definition KeyPair_getPublic_arr (priv : N) : M bytes :=
  call (point_encode (ec host) (point_mul (ec host) (ec_g (ec host)) priv))
       EcGetPublic.

(** [ec.keyFromPublic(pub).getPublic()]: the decoded point. *)
Definition ec_keyFromPublic (pub : bytes) : M (point (ec host)) :=
  fun c =>
    let r := ec_decodePoint (ec host) pub in
    ([EcKeyFromPublic pub (is_ok r)], c, r).

(** Modelled from the spec: [KeyPair.derive(pub)] is code of [elliptic];
    the spec has it "multiply public key B's point by private scalar A"
    and "take the resulting point's X-coordinate". *)
Definition KeyPair_derive (priv : N) (pub : point (ec host)) : M N :=
  call (point_getX (ec host) (point_mul (ec host) pub priv)) EcDerive.

(** *** The exported functions *)

(** [getPublic] has a synchronous interface: [Err] is a thrown error. *)
Definition getPublic (privateKey : bytes) : M bytes :=
  lift (assert (length privateKey =? 32) "Bad private key") ;;;
  key <- ec_keyFromPrivate privateKey ;;
  arr <- KeyPair_getPublic_arr key ;;
  ret (Buffer arr).

Definition sign (privateKey msg : bytes) : completion bytes :=
  Returns (new_Promise (
    lift (assert (length privateKey =? 32) "Bad private key") ;;;
    lift (assert (0 <? length msg) "Message should not be empty") ;;;
    lift (assert (length msg <=? 32) "Message is too long") ;;;
    der <- call (ec_sign (ec host) msg privateKey) (EcSign msg privateKey) ;;
    ret (Buffer der))).

Definition verify (publicKey msg sig : bytes) : completion unit :=
  Returns (new_Promise (
    lift (assert (length publicKey =? 65) "Bad public key") ;;;
    lift (assert (first_byte_is publicKey x04) "Bad public key") ;;;
    lift (assert (0 <? length msg) "Message should not be empty") ;;;
    lift (assert (length msg <=? 32) "Message is too long") ;;;
    good <- call (ec_verify (ec host) msg sig publicKey)
                 (EcVerify msg sig publicKey) ;;
    if good : bool then ret tt else throw (Error "Bad signature"))).

Definition derive (privateKeyA publicKeyB : bytes) : completion bytes :=
  Returns (new_Promise (
    lift (assert (length privateKeyA =? 32) "Bad private key") ;;;
    lift (assert (length publicKeyB =? 65) "Bad public key") ;;;
    lift (assert (first_byte_is publicKeyB x04) "Bad public key") ;;;
    keyA <- ec_keyFromPrivate privateKeyA ;;
    keyB <- ec_keyFromPublic publicKeyB ;;
    Px <- KeyPair_derive keyA keyB ;;
    ret (Buffer (BN_toArray Px)))).

(** [assert(subtle, ...)]: [subtle] is truthy when it is an object. *)
Definition subtle_truthy : bool :=
  match subtle host with Some _ => true | None => false end.

(** The source keeps [iv], [ephemPublicKey], [ciphertext] and [macKey] in
    variables of the enclosing function, each assigned once by the
    callback that computes it and read by later callbacks; here the later
    callbacks are in the scope of the binder. *)
Definition encrypt (publicKeyTo msg : bytes) (opts : option Options)
  : completion Envelope :=
  match assert subtle_truthy "WebCryptoAPI is not available" with
  | Err e => Throws e
  | Ok _ =>
      let opts := options_or_default opts in
      Returns (
        then_
          (new_Promise (
             ephemPrivateKey <-
               or_else (opt_ephemPrivateKey opts) (randomBytes 32) ;;
             ephemPublicKey <- getPublic ephemPrivateKey ;;
             Px <- settle (derive ephemPrivateKey publicKeyTo) ;;
             ret (ephemPublicKey, Px)))
          (fun '(ephemPublicKey, Px) =>
        then_ (sha512 Px) (fun hash =>
        iv <- or_else (opt_iv opts) (randomBytes 16) ;;
        let encryptionKey := slice hash 0 32 in
        let macKey := slice_from hash 32 in
        then_ (aesCbcEncrypt iv encryptionKey msg) (fun data =>
        let ciphertext := data in
        let dataToMac := Buffer_concat [iv; ephemPublicKey; ciphertext] in
        then_ (hmacSha256Sign macKey dataToMac) (fun mac =>
        ret (mkEnvelope iv ephemPublicKey ciphertext mac))))))
  end.

Definition decrypt (privateKey : bytes) (opts : Envelope)
  : completion bytes :=
  match assert subtle_truthy "WebCryptoAPI is not available" with
  | Err e => Throws e
  | Ok _ =>
      completion_then (derive privateKey (ephemPublicKey opts)) (fun Px =>
        then_ (sha512 Px) (fun hash =>
        let encryptionKey := slice hash 0 32 in
        let macKey := slice_from hash 32 in
        let dataToMac :=
          Buffer_concat [iv opts; ephemPublicKey opts; ciphertext opts] in
        then_ (hmacSha256Verify macKey dataToMac (mac opts)) (fun macGood =>
        lift (assert macGood "Bad MAC") ;;;
        then_ (aesCbcDecrypt (iv opts) encryptionKey (ciphertext opts))
              (fun msg => ret (Buffer msg)))))
  end.

(** [decrypt] as JavaScript lets it be called: [opts] can be [undefined]
    or [null].  After [assert(subtle, ...)], reading [opts.ephemPublicKey]
    for the call of [derive] then throws a [TypeError], outside any
    promise. *)
Definition decrypt_call (privateKey : bytes) (opts : option Envelope)
  : completion bytes :=
  match opts with
  | Some envelope => decrypt privateKey envelope
  | None =>
      match assert subtle_truthy "WebCryptoAPI is not available" with
      | Err e => Throws e
      | Ok _ => Throws (TypeError "Cannot read properties of undefined")
      end
  end.

End Browser.

(** ** Running a call *)

(** The promise a call returned, if it returned one. *)
Definition promise_of {A} (c : completion A) : option (Promise A) :=
  match c with
  | Throws _ => None
  | Returns p => Some p
  end.

Definition thrown_by {A} (c : completion A) : option error :=
  match c with
  | Throws e => Some e
  | Returns _ => None
  end.

(** Events by provider. *)
Definition is_subtle_event (e : event) : bool :=
  match e with
  | SubtleDigest _ _ | SubtleImportKey _ _ _ _ | SubtleEncrypt _ _ _ _
  | SubtleDecrypt _ _ _ _ | SubtleSign _ _ _ | SubtleVerify _ _ _ _ => true
  | _ => false
  end.

Definition is_decrypt_event (e : event) : bool :=
  match e with
  | SubtleDecrypt _ _ _ _ => true
  | _ => false
  end.

(** The errors of the validation layer: what [assert] throws for a key or a
    message of the wrong shape (the spec's [InvalidInput]). *)
Definition InvalidInput (e : error) : Prop :=
  e = Error "Bad private key" \/ e = Error "Bad public key" \/
  e = Error "Message should not be empty" \/ e = Error "Message is too long".

(** The spec's [BadMac] and [PrimitiveUnavailable]. *)
Definition BadMac : error := Error "Bad MAC".
Definition PrimitiveUnavailable : error := Error "WebCryptoAPI is not available".

(** Authenticate-then-decrypt, read off a trace: a symmetric decryption
    occurs only after an HMAC verification of [data] against [tag] that
    answered [true]. *)
Fixpoint mac_checked_before_decrypt (tag data : bytes) (authenticated : Prop)
    (evs : list event) : Prop :=
  match evs with
  | [] => True
  | SubtleVerify _ sig msg res :: rest =>
      mac_checked_before_decrypt tag data
        (authenticated \/ (sig = tag /\ msg = data /\ res = Ok true)) rest
  | SubtleDecrypt _ _ _ _ :: rest =>
      authenticated /\ mac_checked_before_decrypt tag data authenticated rest
  | _ :: rest => mac_checked_before_decrypt tag data authenticated rest
  end.

(** ** What the pipeline needs from the providers *)

(** A private key of the curve: 32 octets, a scalar in [1, n-1]. *)
Definition valid_private (E : Elliptic) (sk : bytes) : Prop :=
  length sk = 32 /\ (0 < BN_of_bytes sk < ec_n E)%N.

(** The group of the curve has prime order [n] and is generated by [g];
    scalar multiplication composes; a point [k.g] with [0 < k < n] is finite,
    encodes to 65 octets that start with 0x04, and decodes back. *)
Record EllipticLaws (E : Elliptic) : Prop := mkEllipticLaws {
  order_prime : Z.prime (Z.of_N (ec_n E));
  mul_mul : forall a b : N,
    point_mul E (point_mul E (ec_g E) b) a =
    point_mul E (ec_g E) ((a * b) mod ec_n E)%N;
  getX_finite : forall k : N, (0 < k < ec_n E)%N ->
    exists x, point_getX E (point_mul E (ec_g E) k) = Ok x;
  encode_decode : forall k : N, (0 < k < ec_n E)%N ->
    exists pub,
      point_encode E (point_mul E (ec_g E) k) = Ok pub /\
      length pub = 65 /\ first_byte_is pub x04 = true /\
      ec_decodePoint E pub = Ok (point_mul E (ec_g E) k)
}.

(** SHA-512 gives 64 octets; a 32-octet key imports for AES-CBC and for HMAC;
    AES-CBC encrypts under a 16-octet IV and decrypts what it encrypted under
    the same key and IV; HMAC signs, and verifies its own tag. *)
Record SubtleLaws (s : SubtleCrypto) : Prop := mkSubtleLaws {
  digest_total : forall msg,
    exists h, subtle_digest s msg = Ok h /\ length h = 64;
  import_aes : forall key u, length key = 32 -> u = UEncrypt \/ u = UDecrypt ->
    exists ck, subtle_importKey s AES_CBC key u = Ok ck;
  import_hmac : forall key u, length key = 32 -> u = USign \/ u = UVerify ->
    exists ck, subtle_importKey s HMAC_SHA256 key u = Ok ck;
  encrypt_total : forall key ck iv data,
    subtle_importKey s AES_CBC key UEncrypt = Ok ck -> length iv = 16 ->
    exists c, subtle_encrypt s iv ck data = Ok c;
  decrypt_encrypt : forall key cke ckd iv data c,
    subtle_importKey s AES_CBC key UEncrypt = Ok cke ->
    subtle_importKey s AES_CBC key UDecrypt = Ok ckd ->
    subtle_encrypt s iv cke data = Ok c ->
    subtle_decrypt s iv ckd c = Ok data;
  sign_total : forall key ck msg,
    subtle_importKey s HMAC_SHA256 key USign = Ok ck ->
    exists t, subtle_sign s ck msg = Ok t;
  verify_sign : forall key cks ckv msg t,
    subtle_importKey s HMAC_SHA256 key USign = Ok cks ->
    subtle_importKey s HMAC_SHA256 key UVerify = Ok ckv ->
    subtle_sign s cks msg = Ok t ->
    subtle_verify s ckv t msg = Ok true
}.

(** How a call ends for the caller: the value its promise is fulfilled
    with, or the error it threw or rejected with. *)
Definition outcome {A} (call : completion A) (c : nat) : result A :=
  match call with
  | Throws e => Err e
  | Returns p => result_of p c
  end.

(** [encrypt(pkB, m, opts).then(function (e) { return decrypt(skB, e); })]:
    the envelope that [encrypt] resolves to is handed to [decrypt]. *)
Definition encrypt_then_decrypt (host : Host) (skB pkB m : bytes)
    (opts : option Options) : completion bytes :=
  completion_then (encrypt host pkB m opts)
    (fun e => settle (decrypt host skB e)).

(** [decrypt(skB, encrypt(pkB, m, opts))] resolves to exactly [m]. *)
Definition round_trip (host : Host) (skB pkB m : bytes)
    (opts : option Options) (c : nat) : Prop :=
  outcome (encrypt_then_decrypt host skB pkB m opts) c = Ok m.

(** The ephemeral private key [encrypt] works with: the caller's, or the
    next 32 octets of the entropy tape. *)
Definition ephemeral_key (host : Host) (opts : Options) (cursor : nat) : bytes :=
  match opt_ephemPrivateKey opts with
  | Some k => k
  | None => tape_read host cursor 32
  end.

(** ** A reference host *)

(** A host small enough to run: the cyclic group of order 13 in place of the
    curve, and stand-ins for SHA-512, AES-CBC and HMAC that keep their
    shapes (64-octet digests, 32-octet tags, decryption undoing encryption). *)
Module Reference.

Fixpoint bytes_eqb (a b : bytes) : bool :=
  match a, b with
  | [], [] => true
  | x :: a', y :: b' => Byte.eqb x y && bytes_eqb a' b'
  | _, _ => false
  end.

(** [bn.toArray("be", len)]: left-padded with zeros to [len] octets. *)
Definition toArray_be (n : N) (len : nat) : bytes :=
  let a := if (n =? 0)%N then [] else BN_toArray n in
  repeat x00 (len - length a) ++ a.

Definition infinity_error : error :=
  TypeError "Cannot read properties of null".

(** The uncompressed encoding of the point [k]: the prefix, then two
    coordinates of 32 octets each. *)
Definition public_key (k : N) : bytes :=
  x04 :: toArray_be k 32 ++ toArray_be (13 - k) 32.

Definition curve : Elliptic := {|
  point := N;
  ec_n := 13;
  ec_g := 1%N;
  point_mul := fun P k => ((P * k) mod 13)%N;
  point_getX := fun P =>
    if (P =? 0)%N then Err infinity_error else Ok (P * P * P + 7)%N;
  point_encode := fun P =>
    if (P =? 0)%N then Err infinity_error
    else Ok (public_key P);
  ec_decodePoint := fun pub =>
    if (length pub =? 65) && first_byte_is pub x04 then
      let x := BN_of_bytes (slice pub 1 33) in
      if ((0 <? x) && (x <? 13))%N then Ok x
      else Err (Error "invalid point")
    else Err (Error "Unknown point format");
  ec_sign := fun msg priv => Ok (x30 :: priv ++ msg);
  ec_verify := fun msg sig pub =>
    match sig with
    | x30 :: body => Ok (bytes_eqb (skipn 32 body) msg)
    | _ => Err (Error "Not a signature")
    end
|}.

Definition fill (len : nat) (b : bytes) : bytes :=
  firstn len (b ++ repeat x5c len).

(** A tag that depends on every octet of the key and of the message. *)
Definition tag_of (k : CryptoKey) (msg : bytes) : bytes :=
  toArray_be (BN_of_bytes (key_handle k ++ msg) mod (2 ^ 255 - 19)) 32.

(** [strict] makes AES-CBC refuse an IV that is not 16 octets long, as
    WebCrypto does (an [OperationError]). *)
Definition webcrypto (strict : bool) : SubtleCrypto := {|
  subtle_digest := fun msg => Ok (fill 64 msg);
  subtle_importKey := fun alg key usage =>
    match alg with
    | AES_CBC =>
        if (length key =? 16) || (length key =? 24) || (length key =? 32)
        then Ok (mkCryptoKey alg usage key)
        else Err (DOMException "DataError")
    | HMAC_SHA256 =>
        if length key =? 0 then Err (DOMException "DataError")
        else Ok (mkCryptoKey alg usage key)
    end;
  subtle_encrypt := fun iv k data =>
    if strict && negb (length iv =? 16) then Err (DOMException "OperationError")
    else Ok (hd x00 (key_handle k) :: rev data);
  subtle_decrypt := fun iv k data =>
    if strict && negb (length iv =? 16) then Err (DOMException "OperationError")
    else match data with
         | t :: body =>
             if Byte.eqb t (hd x00 (key_handle k)) then Ok (rev body)
             else Err (DOMException "OperationError")
         | [] => Err (DOMException "OperationError")
         end;
  subtle_sign := fun k msg => Ok (tag_of k msg);
  subtle_verify := fun k sig msg => Ok (bytes_eqb sig (tag_of k msg))
|}.

(** The tape gives the scalar 5 as the first 32 octets, then zeros. *)
Definition tape (i : nat) : byte := if i =? 31 then x05 else x00.

Definition browser : Host := mkHost curve (Some (webcrypto true)) tape.

(** The same browser with an AES-CBC that takes any IV. *)
Definition lenient_browser : Host := mkHost curve (Some (webcrypto false)) tape.

(** A browser without WebCrypto: [subtle] is [undefined]. *)
Definition old_browser : Host := mkHost curve None tape.

(** The private key whose scalar is [k]. *)
Definition key_of (k : N) : bytes := toArray_be k 32.

(** The message of the spec's example: the octets of "test". *)
Definition test_message : bytes := [x74; x65; x73; x74].

(** Options that fix both the ephemeral key and the IV. *)
Definition fixed_options : option Options :=
  Some (mkOptions (Some (key_of 7)) (Some (repeat x2a 16))).

(** An ephemeral key of 31 octets. *)
Definition short_key_options : option Options :=
  Some (mkOptions (Some (repeat x00 31)) None).

(** An IV of 3 octets. *)
Definition short_iv_options : option Options :=
  Some (mkOptions None (Some [x01; x02; x03])).

End Reference.


(** ** Reading a trace *)





(** Draws from the random source. *)
Definition is_random_event (e : event) : bool :=
  match e with
  | GetRandomValues _ => true
  | _ => false
  end.

(** A provider call that failed.  A [keyFromPublic] event keeps whether
    the key decoded. *)
Definition event_failed (e : event) : bool :=
  match e with
  | GetRandomValues _ | EcKeyFromPrivate _ => false
  | EcKeyFromPublic _ ok => negb ok
  | EcGetPublic r => negb (is_ok r)
  | EcDerive r => negb (is_ok r)
  | EcSign _ _ r => negb (is_ok r)
  | EcVerify _ _ _ r => negb (is_ok r)
  | SubtleDigest _ r => negb (is_ok r)
  | SubtleImportKey _ _ _ r => negb (is_ok r)
  | SubtleEncrypt _ _ _ r => negb (is_ok r)
  | SubtleDecrypt _ _ _ r => negb (is_ok r)
  | SubtleSign _ _ r => negb (is_ok r)
  | SubtleVerify _ _ _ r => negb (is_ok r)
  end.

(** The error a provider call raised, if it failed: the one in the event,
    and for [keyFromPublic], whose event keeps no error, the one the curve
    engine raises when it decodes that key. *)
Definition event_error (host : Host) (e : event) : option error :=
  let of_result {A} (r : result A) : option error :=
    match r with Ok _ => None | Err x => Some x end in
  match e with
  | GetRandomValues _ | EcKeyFromPrivate _ => None
  | EcKeyFromPublic pub _ => of_result (ec_decodePoint (ec host) pub)
  | EcGetPublic r => of_result r
  | EcDerive r => of_result r
  | EcSign _ _ r => of_result r
  | EcVerify _ _ _ r => of_result r
  | SubtleDigest _ r => of_result r
  | SubtleImportKey _ _ _ r => of_result r
  | SubtleEncrypt _ _ _ r => of_result r
  | SubtleDecrypt _ _ _ r => of_result r
  | SubtleSign _ _ r => of_result r
  | SubtleVerify _ _ _ r => of_result r
  end.

(** The first failed call ends the run: nothing follows it in the trace,
    and the run ends with the error that call raised. *)
Fixpoint stops_at_failure {A} (host : Host) (r : result A)
    (evs : list event) : Prop :=
  match evs with
  | [] => True
  | e :: rest =>
      (event_failed e = true ->
       rest = [] /\
       exists err, event_error host e = Some err /\ r = Err err) /\
      stops_at_failure host r rest
  end.

(** ECDSA of the curve engine: a valid private key signs every message of
    1 to 32 octets, and the signature verifies under the encoded public key
    of that private key. *)
Record EcdsaLaws (E : Elliptic) : Prop := mkEcdsaLaws {
  ecdsa_sign_total : forall sk msg,
    valid_private E sk -> 0 < length msg <= 32 ->
    exists sig, ec_sign E msg sk = Ok sig;
  ecdsa_verify_sign : forall sk msg sig pub,
    valid_private E sk ->
    ec_sign E msg sk = Ok sig ->
    point_encode E (point_mul E (ec_g E) (BN_of_bytes sk)) = Ok pub ->
    ec_verify E msg sig pub = Ok true
}.

(** HMAC of WebCrypto, under a key imported for verification: the call
    answers for every tag, and accepts for a message no tag but the one
    signing makes for it under the same key octets. *)
Record HmacLaws (s : SubtleCrypto) : Prop := mkHmacLaws {
  verify_total : forall key ckv t msg,
    subtle_importKey s HMAC_SHA256 key UVerify = Ok ckv ->
    exists b, subtle_verify s ckv t msg = Ok b;
  verify_exact : forall key cks ckv msg t t',
    subtle_importKey s HMAC_SHA256 key USign = Ok cks ->
    subtle_importKey s HMAC_SHA256 key UVerify = Ok ckv ->
    subtle_sign s cks msg = Ok t ->
    subtle_verify s ckv t' msg = Ok true ->
    t' = t
}.

(** Reduction stops at the operations on buffers and numbers. *)

Arguments slice : simpl never.
Arguments slice_from : simpl never.
Arguments first_byte_is : simpl never.
Arguments BN_toArray : simpl never.
Arguments BN_of_bytes : simpl never.
Arguments Buffer_concat : simpl never.
Arguments tape_read : simpl never.

(** ** Symbolic execution of the module *)

Ltac unfold_module :=
  unfold encrypt, decrypt, derive, sign, verify, getPublic, sha512,
    aesCbcEncrypt, aesCbcDecrypt, getAes, hmacSha256Sign, hmacSha256Verify,
    subtle_op, with_subtle, ec_keyFromPrivate, ec_keyFromPublic,
    KeyPair_getPublic_arr, KeyPair_derive, randomBytes, or_else,
    completion_then, settle, then_, new_Promise, bind, lift, call, ret, throw,
    events_of, result_of, cursor_of, Buffer, subtle_truthy, options_or_default,
    usage_of_op, assert in *.

(** What was read from the tape has the length that was asked for. *)
Ltac tape_length :=
  match goal with
  | |- context [length (tape_read ?h ?c ?n)] =>
      change (length (tape_read h c n)) with n
  end.

(** One more case of the run: the next provider call that decides it. *)
Ltac split_path :=
  match goal with
  | |- context [subtle ?h] => destruct (subtle h) eqn:?
  | |- context [if ?b then _ else _] => destruct b eqn:?
  | |- context [match ?o with Some _ => _ | None => _ end] => destruct o eqn:?
  | |- context [match ?r with Ok _ => _ | Err _ => _ end] => destruct r eqn:?
  end.

(** Every path of the run in the goal. *)
Ltac all_paths :=
  unfold_module; cbn;
  repeat first [progress (tape_length; cbn) | split_path; cbn].

(** Name the run of the promise in the goal, so that it is evaluated once:
    the goal becomes a property of its trace and result, under the equation
    that defines them. *)
Ltac name_run c :=
  unfold events_of, result_of;
  match goal with
  | |- context [fst (fst (?P c))] =>
      let evs := fresh "evs" in
      let c' := fresh "c'" in
      let r := fresh "r" in
      let E := fresh "Hrun" in
      destruct (P c) as [[evs c'] r] eqn:E; cbn [fst snd]; revert E
  end.

Ltac end_run :=
  let E := fresh "Hrun" in
  intro E; injection E as <- <- <-.

(** Facts about membership in an explicit trace. *)
Ltac trace_inv :=
  repeat match goal with
  | H : In _ (_ :: _) |- _ => destruct H as [H|H]
  | H : In _ [] |- _ => destruct H
  | H : False |- _ => destruct H
  | H : _ \/ _ |- _ => destruct H as [H|H]
  | H : _ /\ _ |- _ => destruct H
  | H : @eq event _ _ |- _ => first [discriminate H | injection H as; subst]
  | H : @eq (result _) _ _ |- _ => first [discriminate H | injection H as; subst]
  end.

(** Membership in an explicit trace. *)
Ltac in_trace :=
  cbn [In]; repeat first [left; reflexivity | right].




Ltac bool_facts :=
  repeat match goal with
  | H : (_ =? _) = true |- _ => apply Nat.eqb_eq in H
  | H : (_ =? _) = false |- _ => apply Nat.eqb_neq in H
  | H : (_ <? _) = true |- _ => apply Nat.ltb_lt in H
  | H : (_ <? _) = false |- _ => apply Nat.ltb_ge in H
  | H : (_ <=? _) = true |- _ => apply Nat.leb_le in H
  | H : (_ <=? _) = false |- _ => apply Nat.leb_gt in H
  end.

(** * Properties *)

(** ** Big-endian octets *)

Section BigEndian.

Local Open Scope N_scope.

Lemma byte_of_N_to_N (n : N) : Byte.to_N (byte_of_N n) = n mod 256.
Proof.
  unfold byte_of_N.
  destruct (Byte.of_N (n mod 256)) as [b|] eqn:E.
  - now apply Byte.to_of_N.
  - apply Byte.of_N_None_iff in E.
    pose proof (N.mod_upper_bound n 256 ltac:(discriminate)). lia.
Qed.

Lemma BN_of_bytes_acc (b : bytes) (acc : N) :
  fold_left (fun a x => a * 256 + Byte.to_N x) b acc =
  acc * 256 ^ N.of_nat (length b) + BN_of_bytes b.
Proof.
  unfold BN_of_bytes. revert acc.
  induction b as [|x b IH]; intro acc.
  - cbn. lia.
  - cbn [fold_left length]. rewrite IH, (IH (0 * 256 + Byte.to_N x)).
    rewrite Nat2N.inj_succ, N.pow_succ_r'. lia.
Qed.

Lemma BN_of_bytes_cons (x : byte) (b : bytes) :
  BN_of_bytes (x :: b) =
  Byte.to_N x * 256 ^ N.of_nat (length b) + BN_of_bytes b.
Proof.
  unfold BN_of_bytes at 1. cbn [fold_left]. now rewrite BN_of_bytes_acc.
Qed.

Lemma BN_of_bytes_bound (b : bytes) :
  BN_of_bytes b < 256 ^ N.of_nat (length b).
Proof.
  induction b as [|x b IH].
  - reflexivity.
  - rewrite BN_of_bytes_cons. cbn [length].
    rewrite Nat2N.inj_succ, N.pow_succ_r'.
    pose proof (Byte.to_N_bounded x).
    pose proof (N.mul_le_mono_r _ _ (256 ^ N.of_nat (length b)) H). lia.
Qed.

Lemma toArray_loop_value (fuel : nat) : forall (q : N) (res : bytes),
  q < 256 ^ N.of_nat fuel ->
  BN_of_bytes (toArray_loop fuel q res) =
  q * 256 ^ N.of_nat (length res) + BN_of_bytes res.
Proof.
  induction fuel as [|fuel IH]; intros q res Hq.
  - cbn [toArray_loop]. change (256 ^ N.of_nat 0) with 1 in Hq.
    assert (q = 0) by lia. subst. now rewrite N.mul_0_l.
  - cbn [toArray_loop]. destruct (q =? 0) eqn:E.
    + apply N.eqb_eq in E. subst. now rewrite N.mul_0_l.
    + rewrite IH.
      * rewrite BN_of_bytes_cons, byte_of_N_to_N.
        cbn [length]. rewrite Nat2N.inj_succ, N.pow_succ_r'.
        change 255 with (N.ones 8). rewrite N.land_ones, N.shiftr_div_pow2.
        change (2 ^ 8) with 256.
        rewrite N.Div0.mod_mod.
        pose proof (N.div_mod q 256 ltac:(discriminate)). nia.
      * rewrite N.shiftr_div_pow2. change (2 ^ 8) with 256.
        rewrite Nat2N.inj_succ, N.pow_succ_r' in Hq.
        apply N.Div0.div_lt_upper_bound. exact Hq.
Qed.

Lemma toArray_loop_length (fuel : nat) : forall (q : N) (res : bytes),
  256 ^ N.of_nat fuel <= 256 * q -> q < 256 ^ N.of_nat fuel ->
  length (toArray_loop fuel q res) = (fuel + length res)%nat.
Proof.
  induction fuel as [|fuel IH]; intros q res Hlo Hhi.
  - reflexivity.
  - cbn [toArray_loop]. destruct (q =? 0) eqn:E.
    + apply N.eqb_eq in E. subst.
      rewrite Nat2N.inj_succ, N.pow_succ_r' in Hlo.
      pose proof (N.pow_nonzero 256 (N.of_nat fuel) ltac:(discriminate)). lia.
    + rewrite Nat2N.inj_succ, N.pow_succ_r' in Hlo, Hhi.
      rewrite N.shiftr_div_pow2. change (2 ^ 8) with 256.
      destruct fuel as [|fuel'].
      * cbn [toArray_loop length]. lia.
      * rewrite IH.
        -- cbn [length]. lia.
        -- pose proof (N.div_mod q 256 ltac:(discriminate)).
           pose proof (N.mod_upper_bound q 256 ltac:(discriminate)).
           rewrite Nat2N.inj_succ, N.pow_succ_r' in *. nia.
        -- apply N.Div0.div_lt_upper_bound. exact Hhi.
Qed.

Lemma byteLength_upper (n : N) : n < 256 ^ N.of_nat (BN_byteLength n).
Proof.
  unfold BN_byteLength. rewrite N2Nat.id.
  change 256 with (2 ^ 8). rewrite <- N.pow_mul_r.
  eapply N.lt_le_trans; [apply N.size_gt|].
  apply N.pow_le_mono_r; [discriminate|].
  pose proof (N.div_mod (N.size n + 7) 8 ltac:(discriminate)).
  pose proof (N.mod_upper_bound (N.size n + 7) 8 ltac:(discriminate)). lia.
Qed.

Lemma byteLength_lower (n : N) :
  0 < n -> 256 ^ N.of_nat (BN_byteLength n) <= 256 * n.
Proof.
  intro Hn. unfold BN_byteLength. rewrite N2Nat.id.
  assert (Hs : N.size n = N.succ (N.log2 n)) by (apply N.size_log2; lia).
  pose proof (N.log2_spec n Hn) as [Hlog _].
  apply N.le_trans with (256 * 2 ^ N.log2 n); [|lia].
  change 256 with (2 ^ 8). rewrite <- N.pow_mul_r, <- N.pow_add_r.
  apply N.pow_le_mono_r; [discriminate|].
  pose proof (N.Div0.mul_div_le (N.size n + 7) 8). lia.
Qed.


Lemma BN_toArray_value (n : N) : BN_of_bytes (BN_toArray n) = n.
Proof.
  unfold BN_toArray. destruct (n =? 0) eqn:E.
  - apply N.eqb_eq in E. now subst.
  - rewrite toArray_loop_value by apply byteLength_upper.
    cbn [length]. change (BN_of_bytes []) with 0.
    change (256 ^ N.of_nat 0) with 1. lia.
Qed.

Lemma BN_toArray_length (n : N) :
  0 < n -> length (BN_toArray n) = BN_byteLength n.
Proof.
  intro Hn. unfold BN_toArray.
  destruct (n =? 0) eqn:E; [apply N.eqb_eq in E; lia|].
  rewrite toArray_loop_length.
  - cbn [length]. lia.
  - now apply byteLength_lower.
  - apply byteLength_upper.
Qed.

Lemma BN_toArray_fits (n : N) (k : nat) :
  (0 < k)%nat -> n < 256 ^ N.of_nat k -> (length (BN_toArray n) <= k)%nat.
Proof.
  intros Hk Hn. destruct (N.eq_dec n 0) as [->|Hz].
  - change (BN_toArray 0) with [x00]. cbn [length]. lia.
  - rewrite BN_toArray_length by lia.
    pose proof (byteLength_lower (n := n) ltac:(lia)) as Hlo.
    assert (H : 256 ^ N.of_nat (BN_byteLength n) < 256 ^ N.of_nat (S k)).
    { rewrite (Nat2N.inj_succ k), N.pow_succ_r'. lia. }
    apply N.pow_lt_mono_r_iff in H; [lia|reflexivity].
Qed.

Lemma BN_toArray_minimal (n : N) (b : bytes) :
  b <> [] -> BN_of_bytes b = n -> (length (BN_toArray n) <= length b)%nat.
Proof.
  intros Hb Hv. apply BN_toArray_fits.
  - destruct b; [congruence|cbn; lia].
  - rewrite <- Hv. apply BN_of_bytes_bound.
Qed.

End BigEndian.

(** ** Traces *)

Lemma tape_read_length (host : Host) (c size : nat) :
  length (tape_read host c size) = size.
Proof. unfold tape_read. now rewrite length_map, length_seq. Qed.

Lemma Buffer_concat3 (a b c : bytes) : Buffer_concat [a; b; c] = a ++ b ++ c.
Proof. unfold Buffer_concat. cbn. now rewrite app_nil_r. Qed.

(** A decryption in a trace that keeps the discipline has an accepted
    verification of the tag before it. *)
Lemma mac_checked_split (tag data : bytes) (evs : list event) :
  forall (authenticated : Prop),
    mac_checked_before_decrypt tag data authenticated evs ->
    forall pre iv k d r post,
      evs = pre ++ SubtleDecrypt iv k d r :: post ->
      authenticated \/ exists k', In (SubtleVerify k' tag data (Ok true)) pre.
Proof.
  induction evs as [|e evs IH]; intros auth Hc pre iv0 k d r post Heq.
  - destruct pre; discriminate.
  - destruct pre as [|e' pre]; cbn in Heq; injection Heq as -> ->.
    + cbn in Hc. now left.
    + destruct e'; cbn in Hc;
        try (destruct (IH _ Hc _ _ _ _ _ _ eq_refl) as [Ha|[k' Hin]];
             [now left | right; exists k'; now right]).
      * destruct Hc as [Ha Hc].
        destruct (IH _ Hc _ _ _ _ _ _ eq_refl) as [Ha'|[k' Hin]];
          [now left | right; exists k'; now right].
      * destruct (IH _ Hc _ _ _ _ _ _ eq_refl) as [[Ha|(-> & -> & ->)]|[k' Hin]].
        -- now left.
        -- right. exists key. now left.
        -- right. exists k'. now right.
Qed.

(** C2. In every run of [decrypt]: if the HMAC verification answers
    [false], the promise is rejected with "Bad MAC" and the trace holds no
    symmetric decryption; and wherever a symmetric decryption occurs in the
    trace, a verification of [iv || ephemPublicKey || ciphertext] against
    the envelope's [mac] that answered [true] occurs before it. *)
Theorem decrypt_verifies_mac_before_decrypting
    (host : Host) (privateKey : bytes) (opts : Envelope) (c : nat) :
  match decrypt host privateKey opts with
  | Throws e => e = PrimitiveUnavailable
  | Returns p =>
      let dataToMac := iv opts ++ ephemPublicKey opts ++ ciphertext opts in
      (forall k sig msg,
         In (SubtleVerify k sig msg (Ok false)) (events_of p c) ->
         result_of p c = Err BadMac /\
         filter is_decrypt_event (events_of p c) = []) /\
      (forall pre iv0 k d r post,
         events_of p c = pre ++ SubtleDecrypt iv0 k d r :: post ->
         exists k', In (SubtleVerify k' (mac opts) dataToMac (Ok true)) pre)
  end.
Proof.
  assert (Hc : match decrypt host privateKey opts with
               | Throws e => e = PrimitiveUnavailable
               | Returns p =>
                   (forall k sig msg,
                      In (SubtleVerify k sig msg (Ok false)) (events_of p c) ->
                      result_of p c = Err BadMac /\
                      filter is_decrypt_event (events_of p c) = []) /\
                   mac_checked_before_decrypt (mac opts)
                     (iv opts ++ ephemPublicKey opts ++ ciphertext opts)
                     False (events_of p c)
               end).
  { unfold decrypt. rewrite Buffer_concat3. all_paths;
      try reflexivity; try (split; [intros; trace_inv; auto | tauto]). }
  destruct (decrypt host privateKey opts) as [e|p]; [exact Hc|].
  destruct Hc as [Hbad Hchk]. split; [exact Hbad|].
  intros pre iv0 k d r post Heq.
  eapply mac_checked_split in Hchk; [|exact Heq].
  destruct Hchk as [[]|H]; exact H.
Qed.

(** ** Input validation *)

(** C7. [getPublic] throws "Bad private key" for every private key that is
    not 32 octets long; [sign] rejects with an input error for every private
    key that is not 32 octets long and every message of length 0 or above
    32; [verify] rejects with an input error for every public key that is
    not 65 octets long or does not start with 0x04 and every message of
    length 0 or above 32. In each case the trace is empty: the curve engine
    was not called. *)
Theorem malformed_input_is_rejected_before_any_curve_work (host : Host) :
  (forall privateKey c,
     length privateKey <> 32 ->
     getPublic host privateKey c = ([], c, Err (Error "Bad private key"))) /\
  (forall privateKey msg c,
     length privateKey <> 32 \/ length msg = 0 \/ 32 < length msg ->
     exists p e,
       sign host privateKey msg = Returns p /\
       p c = ([], c, Err e) /\ InvalidInput e) /\
  (forall publicKey msg sig c,
     length publicKey <> 65 \/ first_byte_is publicKey x04 = false \/
     length msg = 0 \/ 32 < length msg ->
     exists p e,
       verify host publicKey msg sig = Returns p /\
       p c = ([], c, Err e) /\ InvalidInput e).
Proof.
  unfold InvalidInput. repeat split.
  - intros sk c H. apply Nat.eqb_neq in H.
    unfold_module. rewrite H. reflexivity.
  - intros sk msg c H.
    destruct (length sk =? 32) eqn:E1;
    destruct (0 <? length msg) eqn:E2;
    destruct (length msg <=? 32) eqn:E3;
    try (exfalso; apply Nat.eqb_eq in E1; apply Nat.ltb_lt in E2;
         apply Nat.leb_le in E3; lia);
    (do 2 eexists; split; [reflexivity|]);
    unfold_module; rewrite ?E1, ?E2, ?E3; cbn; rewrite ?E1, ?E2, ?E3; cbn;
    (split; [reflexivity|auto]).
  - intros pk msg sig c H.
    destruct (length pk =? 65) eqn:E0;
    destruct (first_byte_is pk x04) eqn:E1;
    destruct (0 <? length msg) eqn:E2;
    destruct (length msg <=? 32) eqn:E3;
    try (exfalso; apply Nat.eqb_eq in E0; apply Nat.ltb_lt in E2;
         apply Nat.leb_le in E3;
         destruct H as [H|[H|[H|H]]]; [lia|discriminate|lia|lia]);
    (do 2 eexists; split; [reflexivity|]);
    unfold_module; rewrite ?E0, ?E1, ?E2, ?E3; cbn;
    rewrite ?E0, ?E1, ?E2, ?E3; cbn; (split; [reflexivity|auto]).
Qed.

(** ** How failures are delivered *)

(** [sign], [verify] and [derive] do all their work inside the executor of
    the promise they return: whatever fails rejects that promise. *)
Lemma sign_verify_derive_never_throw (host : Host) :
  (forall privateKey msg, thrown_by (sign host privateKey msg) = None) /\
  (forall publicKey msg sig, thrown_by (verify host publicKey msg sig) = None) /\
  (forall privateKeyA publicKeyB,
     thrown_by (derive host privateKeyA publicKeyB) = None).
Proof. repeat split. Qed.

(** With WebCrypto present, [encrypt] and [decrypt] return a promise too. *)
Lemma encrypt_decrypt_return_promise_with_subtle (host : Host) (s : SubtleCrypto) :
  subtle host = Some s ->
  (forall publicKeyTo msg opts,
     thrown_by (encrypt host publicKeyTo msg opts) = None) /\
  (forall privateKey opts, thrown_by (decrypt host privateKey opts) = None).
Proof.
  intro Hs. split; intros; unfold encrypt, decrypt, subtle_truthy;
    rewrite Hs; reflexivity.
Qed.

(** C8 does not hold of [encrypt] and [decrypt]: in a browser without
    WebCrypto each of them throws "WebCryptoAPI is not available" at the
    call and returns no promise, so this failure does not arrive as a
    rejection. *)
Theorem encrypt_decrypt_throw_synchronously_without_subtle (host : Host) :
  subtle host = None ->
  (forall publicKeyTo msg opts,
     encrypt host publicKeyTo msg opts = Throws PrimitiveUnavailable /\
     promise_of (encrypt host publicKeyTo msg opts) = None) /\
  (forall privateKey opts,
     decrypt host privateKey opts = Throws PrimitiveUnavailable /\
     promise_of (decrypt host privateKey opts) = None).
Proof.
  intro Hs. split; intros; unfold encrypt, decrypt, subtle_truthy;
    rewrite Hs; split; reflexivity.
Qed.

(** ** Validation inside [encrypt] *)

(** C9. When the caller's [ephemPrivateKey] is not 32 octets long, or
    [publicKeyTo] is not 65 octets that start with 0x04, [encrypt] produces
    no envelope: it fails, and its trace holds no call to [subtle] (no hash,
    no cipher, no MAC).  A short or long ephemeral key fails at once with
    "Bad private key" ([getPublic]'s check); a malformed [publicKeyTo] fails
    with "Bad public key" ([derive]'s checks) once the ephemeral public key
    was encoded. *)
Theorem encrypt_rejects_malformed_keys_before_hashing
    (host : Host) (publicKeyTo msg : bytes) (opts : option Options) (c : nat) :
  (exists k, opt_ephemPrivateKey (options_or_default opts) = Some k /\
             length k <> 32) \/
  length publicKeyTo <> 65 \/ first_byte_is publicKeyTo x04 = false ->
  match encrypt host publicKeyTo msg opts with
  | Throws e => e = PrimitiveUnavailable
  | Returns p =>
      (exists e, result_of p c = Err e) /\
      filter is_subtle_event (events_of p c) = [] /\
      (forall k, opt_ephemPrivateKey (options_or_default opts) = Some k ->
         length k <> 32 ->
         p c = ([], c, Err (Error "Bad private key"))) /\
      (forall pub, In (EcGetPublic (Ok pub)) (events_of p c) ->
         result_of p c = Err (Error "Bad public key"))
  end.
Proof.
  intros H. all_paths.
  all: try reflexivity.
  all: try (exfalso; bool_facts;
            destruct H as [(k & Hk & Hl)|[H|H]];
            [ first [discriminate Hk | injection Hk as <-; lia] | lia | congruence ]).
  all: repeat split; try (eexists; reflexivity).
  all: try (intros k Hk Hl;
            first [discriminate Hk
                  | injection Hk as <-; bool_facts; first [reflexivity | lia]]).
  all: try (intros pub Hin; trace_inv; reflexivity).
Qed.

(** ** The key split and what is authenticated *)

Lemma halves_of_digest (hash : bytes) :
  length hash = 64 ->
  length (firstn 32 hash) = 32 /\ length (skipn 32 hash) = 32 /\
  firstn 32 hash ++ skipn 32 hash = hash.
Proof.
  intro H. rewrite length_firstn, length_skipn, firstn_skipn, H.
  repeat split.
Qed.

Lemma slice_0_32 (hash : bytes) : slice hash 0 32 = firstn 32 hash.
Proof. reflexivity. Qed.

Lemma slice_from_32 (hash : bytes) : slice_from hash 32 = skipn 32 hash.
Proof. reflexivity. Qed.



(** ** The caller's IV *)

(** On every path of [encrypt], whatever the providers do: a caller's IV
    [iv0] of any length is the IV of every cipher call, the cipher is called
    whenever the key was imported, what is signed starts with [iv0], an
    envelope has [iv0] as its [iv], and no IV is drawn. *)
Lemma caller_iv_on_every_path
    (host : Host) (publicKeyTo msg : bytes) (ephem : option bytes)
    (iv0 : bytes) (c : nat) :
  match encrypt host publicKeyTo msg (Some (mkOptions ephem (Some iv0))) with
  | Throws e => e = PrimitiveUnavailable
  | Returns p =>
      (forall iv' k d r,
         In (SubtleEncrypt iv' k d r) (events_of p c) -> iv' = iv0 /\ d = msg) /\
      (forall px hash cke,
         In (SubtleDigest px (Ok hash)) (events_of p c) ->
         In (SubtleImportKey AES_CBC (slice hash 0 32) UEncrypt (Ok cke))
            (events_of p c) ->
         exists r, In (SubtleEncrypt iv0 cke msg r) (events_of p c)) /\
      (forall k dataToMac r,
         In (SubtleSign k dataToMac r) (events_of p c) ->
         exists epk ct, dataToMac = iv0 ++ epk ++ ct) /\
      (forall e, result_of p c = Ok e -> iv e = iv0) /\
      (forall out,
         In (GetRandomValues out) (events_of p c) ->
         ephem = None /\ out = tape_read host c 32)
  end.
Proof.
  unfold encrypt, subtle_truthy.
  destruct (subtle host) as [s|] eqn:Hs; [cbn [assert]|reflexivity].
  name_run c. all_paths; end_run.
  all: repeat split; intros; trace_inv; rewrite ?Buffer_concat3.
  all: try solve [reflexivity | eexists; in_trace | do 2 eexists; reflexivity].
Qed.

(** An IV of three octets goes through [encrypt] when AES-CBC takes it: it
    is the envelope's [iv] and the head of what is signed. *)
Example three_octet_iv_reaches_the_envelope :
  match encrypt Reference.lenient_browser
          (Reference.public_key 3) Reference.test_message
          Reference.short_iv_options with
  | Throws _ => False
  | Returns p =>
      match result_of p 0 with
      | Ok e => iv e = [x01; x02; x03] /\ length (mac e) = 32
      | Err _ => False
      end
  end.
Proof. vm_compute. split; reflexivity. Qed.

(** With the AES-CBC of WebCrypto the same call is rejected by the cipher,
    after it was handed the three octets. *)
Example three_octet_iv_is_refused_by_the_cipher_only :
  match encrypt Reference.browser
          (Reference.public_key 3) Reference.test_message
          Reference.short_iv_options with
  | Throws _ => False
  | Returns p =>
      result_of p 0 = Err (DOMException "OperationError") /\
      exists k,
        In (SubtleEncrypt [x01; x02; x03] k Reference.test_message
              (Err (DOMException "OperationError"))) (events_of p 0)
  end.
Proof.
  vm_compute. split; [reflexivity|]. eexists. do 8 right. left. reflexivity.
Qed.

(** ** The reference host satisfies the laws *)

Lemma prime_13 : Z.prime 13.
Proof.
  split; [lia|]. intros n Hn [k Hk].
  assert (n = 2 \/ n = 3 \/ n = 4 \/ n = 5 \/ n = 6 \/ n = 7 \/
          n = 8 \/ n = 9 \/ n = 10 \/ n = 11 \/ n = 12)%Z as H by lia.
  repeat (destruct H as [->|H]; [lia|]). lia.
Qed.

Lemma reference_curve_laws : EllipticLaws Reference.curve.
Proof.
  constructor;
    cbv [Reference.curve ec_n ec_g point_mul point_getX point_encode
         ec_decodePoint point].
  - exact prime_13.
  - intros a b. rewrite !N.mul_1_l, N.Div0.mod_mod, N.Div0.mul_mod_idemp_l.
    now rewrite N.mul_comm.
  - intros k Hk. rewrite N.mul_1_l, N.mod_small by lia.
    destruct (k =? 0)%N eqn:E; [apply N.eqb_eq in E; lia|]. eauto.
  - intros k Hk. rewrite N.mul_1_l, N.mod_small by lia.
    assert (k = 1 \/ k = 2 \/ k = 3 \/ k = 4 \/ k = 5 \/ k = 6 \/ k = 7 \/
            k = 8 \/ k = 9 \/ k = 10 \/ k = 11 \/ k = 12)%N as H by lia.
    repeat (destruct H as [->|H];
            [eexists; split; [reflexivity|]; vm_compute; repeat split|]).
    subst. eexists; split; [reflexivity|]; vm_compute; repeat split.
Qed.

Lemma bytes_eqb_refl (b : bytes) : Reference.bytes_eqb b b = true.
Proof.
  induction b as [|x b IH]; [reflexivity|]. cbn.
  rewrite IH. destruct x; reflexivity.
Qed.

Lemma fill_length (len : nat) (b : bytes) : length (Reference.fill len b) = len.
Proof.
  unfold Reference.fill. rewrite length_firstn, length_app, repeat_length. lia.
Qed.

Lemma reference_webcrypto_laws (strict : bool) :
  SubtleLaws (Reference.webcrypto strict).
Proof.
  constructor;
    cbv [Reference.webcrypto subtle_digest subtle_importKey subtle_encrypt
         subtle_decrypt subtle_sign subtle_verify].
  - intros msg. eexists. split; [reflexivity|apply fill_length].
  - intros key u -> _. cbn. eauto.
  - intros key u -> _. cbn. eauto.
  - intros key ck iv0 data _ ->. cbn. rewrite andb_false_r. eauto.
  - intros key cke ckd iv0 data c0 He Hd.
    destruct ((length key =? 16) || (length key =? 24) || (length key =? 32));
      [|discriminate].
    injection He as <-. injection Hd as <-. cbn [key_handle].
    destruct (strict && negb (length iv0 =? 16)); [discriminate|].
    intros [= <-]. rewrite rev_involutive.
    now destruct (hd x00 key).
  - eauto.
  - intros key cks ckv msg t Hs Hv.
    destruct (length key =? 0); [discriminate|].
    injection Hs as <-. injection Hv as <-. intros [= <-].
    cbn [key_handle]. now rewrite bytes_eqb_refl.
Qed.

(** ** Key agreement *)

Lemma scalar_product_in_range (n a b : N) :
  Z.prime (Z.of_N n) -> (0 < a < n)%N -> (0 < b < n)%N ->
  (0 < (a * b) mod n < n)%N.
Proof.
  intros Hp Ha Hb. split; [|apply N.mod_upper_bound; lia].
  apply N.neq_0_lt_0. intro H0.
  apply N.Lcm0.mod_divide in H0. destruct H0 as [k Hk].
  assert (Hd : (Z.of_N n | Z.of_N a * Z.of_N b)%Z).
  { exists (Z.of_N k). rewrite <- !N2Z.inj_mul. now f_equal. }
  apply (Z.divide_prime_mul _ _ _ Hp) in Hd.
  destruct Hd as [Hd|Hd]; apply Z.divide_pos_le in Hd; lia.
Qed.

Section KeyAgreement.

Variable host : Host.
Hypothesis curve_laws : EllipticLaws (ec host).

Lemma getPublic_of_valid (sk : bytes) :
  valid_private (ec host) sk ->
  exists pub,
    (forall c, getPublic host sk c =
               ([EcKeyFromPrivate sk; EcGetPublic (Ok pub)], c, Ok pub)) /\
    length pub = 65 /\ first_byte_is pub x04 = true /\
    ec_decodePoint (ec host) pub =
    Ok (point_mul (ec host) (ec_g (ec host)) (BN_of_bytes sk)).
Proof.
  intros [Hlen Hrange].
  destruct (encode_decode curve_laws Hrange) as (pub & Henc & Hl & H4 & Hdec).
  exists pub. repeat split; try assumption.
  intro c. unfold_module. rewrite Hlen. cbn. now rewrite Henc.
Qed.

Lemma derive_of_valid (skA skB pub : bytes) :
  valid_private (ec host) skA -> valid_private (ec host) skB ->
  length pub = 65 -> first_byte_is pub x04 = true ->
  ec_decodePoint (ec host) pub =
  Ok (point_mul (ec host) (ec_g (ec host)) (BN_of_bytes skB)) ->
  exists x,
    point_getX (ec host)
      (point_mul (ec host) (ec_g (ec host))
         ((BN_of_bytes skA * BN_of_bytes skB) mod ec_n (ec host))%N) = Ok x /\
    forall c, settle (derive host skA pub) c =
              ([EcKeyFromPrivate skA; EcKeyFromPublic pub true;
                EcDerive (Ok x)], c, Ok (BN_toArray x)).
Proof.
  intros [HlA HrA] [HlB HrB] Hl H4 Hdec.
  pose proof (scalar_product_in_range (order_prime curve_laws) HrA HrB) as Hr.
  destruct (getX_finite curve_laws Hr) as [x Hx].
  exists x. split; [exact Hx|]. intro c.
  unfold_module. rewrite HlA, Hl, H4, Hdec. cbn.
  rewrite (mul_mul curve_laws), Hx. reflexivity.
Qed.

End KeyAgreement.

(** C6. For valid private keys [skA] and [skB] with public keys
    [pkA = getPublic(skA)] and [pkB = getPublic(skB)], the promises of
    [derive(skA, pkB)] and [derive(skB, pkA)] are fulfilled with the same
    octets. *)
Theorem derive_is_symmetric
    (host : Host) (skA skB pkA pkB : bytes) (cA cB : nat) :
  EllipticLaws (ec host) ->
  valid_private (ec host) skA -> valid_private (ec host) skB ->
  result_of (getPublic host skA) cA = Ok pkA ->
  result_of (getPublic host skB) cB = Ok pkB ->
  exists pAB pBA shared,
    derive host skA pkB = Returns pAB /\
    derive host skB pkA = Returns pBA /\
    (forall c, result_of pAB c = Ok shared) /\
    (forall c, result_of pBA c = Ok shared).
Proof.
  intros L HA HB HpA HpB.
  destruct (@getPublic_of_valid host L _ HA) as (pubA & HrunA & HlA & H4A & HdA).
  destruct (@getPublic_of_valid host L _ HB) as (pubB & HrunB & HlB & H4B & HdB).
  unfold result_of in HpA, HpB. rewrite HrunA in HpA. rewrite HrunB in HpB.
  injection HpA as <-. injection HpB as <-.
  destruct (@derive_of_valid host L _ _ _ HA HB HlB H4B HdB) as (x & Hx & HrunAB).
  destruct (@derive_of_valid host L _ _ _ HB HA HlA H4A HdA) as (y & Hy & HrunBA).
  rewrite N.mul_comm, Hx in Hy. injection Hy as <-.
  exists (settle (derive host skA pubB)), (settle (derive host skB pubA)),
    (BN_toArray x).
  split; [reflexivity|]. split; [reflexivity|].
  split; intro c; unfold result_of.
  - now rewrite (HrunAB c).
  - now rewrite (HrunBA c).
Qed.

(** C5. For a private key of 32 octets and a public key of 65 octets that
    starts with 0x04 and decodes to the point [B], when the shared point has
    the X coordinate [x], [derive] is fulfilled with the big-endian octets of
    [x] and no padding: they read back as [x], no non-empty sequence that
    reads as [x] is shorter, an [x] below [256^k] takes at most [k] octets,
    and an [x] below [256^31] takes fewer than 32. *)
Theorem derive_returns_minimal_big_endian_x
    (host : Host) (privateKeyA publicKeyB : bytes)
    (B : point (ec host)) (x : N) (c : nat) :
  length privateKeyA = 32 ->
  length publicKeyB = 65 -> first_byte_is publicKeyB x04 = true ->
  ec_decodePoint (ec host) publicKeyB = Ok B ->
  point_getX (ec host) (point_mul (ec host) B (BN_of_bytes privateKeyA)) = Ok x ->
  exists p Px,
    derive host privateKeyA publicKeyB = Returns p /\
    result_of p c = Ok Px /\
    BN_of_bytes Px = x /\
    (forall b, b <> [] -> BN_of_bytes b = x -> length Px <= length b) /\
    (forall k, 0 < k -> (x < 256 ^ N.of_nat k)%N -> length Px <= k) /\
    ((x < 256 ^ 31)%N -> length Px < 32).
Proof.
  intros HA HB H4 Hdec Hx.
  do 2 eexists. split; [reflexivity|]. split.
  - unfold_module. rewrite HA, HB, H4, Hdec. cbn. rewrite Hx. reflexivity.
  - split; [apply BN_toArray_value|]. split; [|split].
    + intros b Hb Hv. now apply BN_toArray_minimal.
    + intros k Hk Hlt. now apply BN_toArray_fits.
    + intro Hlt. apply Nat.lt_succ_r. apply BN_toArray_fits; [lia|exact Hlt].
Qed.

(** ** Round trip *)

Lemma eqb_of_length (b : bytes) (n : nat) : length b = n -> (length b =? n) = true.
Proof. intros ->. apply Nat.eqb_refl. Qed.

(** The IV of a run of [encrypt] that starts drawing it at cursor [c]. *)
Lemma chosen_iv_length (host : Host) (o : Options) (c : nat) :
  (forall iv0, opt_iv o = Some iv0 -> length iv0 = 16) ->
  length (match opt_iv o with
          | Some i => i
          | None => tape_read host c 16
          end) = 16.
Proof.
  intro H. destruct (opt_iv o) as [i|]; [now apply H|apply tape_read_length].
Qed.

(** C1, as amended. In a browser that has WebCrypto, for every valid key
    pair [(skB, pkB)] with [pkB = getPublic(skB)], every message [m], every
    ephemeral private key that is valid and every IV of 16 octets, each
    given in [opts] or drawn from the random source,
    [decrypt(skB, encrypt(pkB, m, opts))] resolves to exactly [m]. *)
Theorem decrypt_inverts_encrypt
    (host : Host) (s : SubtleCrypto) (skB pkB m : bytes)
    (opts : option Options) (c cB : nat) :
  EllipticLaws (ec host) -> SubtleLaws s -> subtle host = Some s ->
  valid_private (ec host) skB ->
  result_of (getPublic host skB) cB = Ok pkB ->
  valid_private (ec host) (ephemeral_key host (options_or_default opts) c) ->
  (forall iv0, opt_iv (options_or_default opts) = Some iv0 -> length iv0 = 16) ->
  round_trip host skB pkB m opts c.
Proof.
  intros L LS Hs HB HpB HE Hiv. unfold round_trip.
  remember (options_or_default opts) as o eqn:Ho.
  (* the recipient's key pair *)
  destruct (@getPublic_of_valid host L _ HB) as (pubB & HrunB & HlB & H4B & HdB).
  unfold result_of in HpB. rewrite HrunB in HpB. injection HpB as <-.
  (* the ephemeral key pair *)
  set (ek := ephemeral_key host o c) in *.
  destruct HE as [HlE HrE]. destruct HB as [HlS HrS].
  destruct (@encode_decode _ L _ HrE) as (epk & HencE & HlP & H4P & HdP).
  (* the shared point, from either side *)
  pose proof (scalar_product_in_range (order_prime L) HrE HrS) as Hr.
  destruct (@getX_finite _ L _ Hr) as [x Hx].
  assert (HxE : point_getX (ec host)
            (point_mul (ec host)
               (point_mul (ec host) (ec_g (ec host)) (BN_of_bytes skB))
               (BN_of_bytes ek)) = Ok x)
    by now rewrite (mul_mul L).
  assert (HxD : point_getX (ec host)
            (point_mul (ec host)
               (point_mul (ec host) (ec_g (ec host)) (BN_of_bytes ek))
               (BN_of_bytes skB)) = Ok x)
    by now rewrite (mul_mul L), N.mul_comm.
  (* the keys *)
  destruct (@digest_total s LS (BN_toArray x)) as (h & Hh & Hlh).
  destruct (halves_of_digest h Hlh) as (Hk1 & Hk2 & _).
  change (firstn 32 h) with (slice h 0 32) in Hk1.
  change (skipn 32 h) with (slice_from h 32) in Hk2.
  destruct (@import_aes s LS _ UEncrypt Hk1 (or_introl eq_refl)) as [cke Hcke].
  destruct (@import_aes s LS _ UDecrypt Hk1 (or_intror eq_refl)) as [ckd Hckd].
  destruct (@import_hmac s LS _ USign Hk2 (or_introl eq_refl)) as [cks Hcks].
  destruct (@import_hmac s LS _ UVerify Hk2 (or_intror eq_refl)) as [ckv Hckv].
  (* the IV, the ciphertext and the tag *)
  set (c1 := match opt_ephemPrivateKey o with Some _ => c | None => c + 32 end).
  set (iv1 := match opt_iv o with Some i => i | None => tape_read host c1 16 end).
  assert (Hl1 : length iv1 = 16) by (apply chosen_iv_length; exact Hiv).
  destruct (@encrypt_total s LS _ _ _ m Hcke Hl1) as [ct Hct].
  destruct (@sign_total s LS _ _ (iv1 ++ epk ++ ct) Hcks) as [t Ht].
  pose proof (@decrypt_encrypt s LS _ _ _ _ _ _ Hcke Hckd Hct) as Hdec.
  pose proof (@verify_sign s LS _ _ _ _ _ Hcks Hckv Ht) as Hver.
  apply eqb_of_length in HlS, HlB, HlP, HlE.
  unfold outcome, encrypt_then_decrypt, encrypt, decrypt, subtle_truthy.
  rewrite Hs, <- Ho. cbn [assert completion_then].
  unfold_module. rewrite <- Buffer_concat3 in Ht, Hver.
  subst ek c1 iv1. unfold ephemeral_key in *.
  destruct (opt_ephemPrivateKey o) as [k|]; destruct (opt_iv o) as [i|];
    repeat (cbn;
            first [ rewrite Hs | rewrite HlE | rewrite HencE | rewrite HlB
                  | rewrite H4B | rewrite HdB | rewrite HxE | rewrite Hh
                  | rewrite Hcke | rewrite Hct | rewrite Hcks | rewrite Ht
                  | rewrite HlS | rewrite HlP | rewrite H4P | rewrite HdP
                  | rewrite HxD | rewrite Hckv | rewrite Hver
                  | rewrite Hckd | rewrite Hdec ]);
    reflexivity.
Qed.

(** ** The reference host at work *)

Lemma reference_key_is_valid (host : Host) (k : N) :
  ec host = Reference.curve -> (0 < k < 13)%N ->
  valid_private (ec host) (Reference.key_of k).
Proof.
  intros -> Hk.
  assert (k = 1 \/ k = 2 \/ k = 3 \/ k = 4 \/ k = 5 \/ k = 6 \/ k = 7 \/
          k = 8 \/ k = 9 \/ k = 10 \/ k = 11 \/ k = 12)%N as H by lia.
  repeat (destruct H as [->|H]; [split; vm_compute; repeat split|]).
  subst. split; vm_compute; repeat split.
Qed.

(** The spec's example: "test" encrypted to the key pair of scalar 3 under a
    fixed ephemeral key and a fixed IV, then decrypted. *)
Lemma decrypt_inverts_encrypt_witness :
  valid_private (ec Reference.browser) (Reference.key_of 3) /\
  result_of (getPublic Reference.browser (Reference.key_of 3)) 0 =
    Ok (Reference.public_key 3) /\
  round_trip Reference.browser (Reference.key_of 3) (Reference.public_key 3)
    Reference.test_message Reference.fixed_options 0.
Proof.
  assert (H3 : valid_private (ec Reference.browser) (Reference.key_of 3))
    by (apply reference_key_is_valid; [reflexivity|lia]).
  split; [exact H3|]. split; [vm_compute; reflexivity|].
  apply (@decrypt_inverts_encrypt Reference.browser (Reference.webcrypto true)
           (Reference.key_of 3) (Reference.public_key 3)
           Reference.test_message Reference.fixed_options 0 0).
  - apply reference_curve_laws.
  - apply reference_webcrypto_laws.
  - reflexivity.
  - exact H3.
  - vm_compute; reflexivity.
  - apply (@reference_key_is_valid Reference.browser 7); [reflexivity|lia].
  - intros iv0 H. injection H as <-. reflexivity.
Defined.

(** The same with nothing fixed: the ephemeral key and the IV come from the
    random source. *)
Example round_trip_with_random_key_and_iv :
  round_trip Reference.browser (Reference.key_of 3) (Reference.public_key 3)
    Reference.test_message None 0.
Proof. vm_compute. reflexivity. Qed.

(** C1 as stated fails: with a caller's ephemeral key of 31 octets the
    round trip for a valid key pair ends in "Bad private key"; with a
    caller's IV of 3 octets it ends in the cipher's [OperationError]; and in
    a browser without WebCrypto it ends in "WebCryptoAPI is not available". *)
Lemma round_trip_fails_for_malformed_options :
  valid_private (ec Reference.browser) (Reference.key_of 3) /\
  result_of (getPublic Reference.browser (Reference.key_of 3)) 0 =
    Ok (Reference.public_key 3) /\
  outcome (encrypt_then_decrypt Reference.browser (Reference.key_of 3)
             (Reference.public_key 3) Reference.test_message
             Reference.short_key_options) 0 =
    Err (Error "Bad private key") /\
  ~ round_trip Reference.browser (Reference.key_of 3) (Reference.public_key 3)
      Reference.test_message Reference.short_key_options 0 /\
  outcome (encrypt_then_decrypt Reference.browser (Reference.key_of 3)
             (Reference.public_key 3) Reference.test_message
             Reference.short_iv_options) 0 =
    Err (DOMException "OperationError") /\
  outcome (encrypt_then_decrypt Reference.old_browser (Reference.key_of 3)
             (Reference.public_key 3) Reference.test_message None) 0 =
    Err PrimitiveUnavailable.
Proof.
  split; [apply reference_key_is_valid; [reflexivity|lia]|].
  split; [vm_compute; reflexivity|].
  assert (H : outcome (encrypt_then_decrypt Reference.browser
                         (Reference.key_of 3) (Reference.public_key 3)
                         Reference.test_message Reference.short_key_options) 0 =
              Err (Error "Bad private key")) by (vm_compute; reflexivity).
  split; [exact H|]. split.
  - unfold round_trip. rewrite H. discriminate.
  - split; vm_compute; reflexivity.
Qed.

(** Two key pairs of the reference curve agree on the secret. *)
Lemma derive_is_symmetric_witness :
  valid_private (ec Reference.browser) (Reference.key_of 2) /\
  valid_private (ec Reference.browser) (Reference.key_of 3) /\
  exists pAB pBA shared,
    derive Reference.browser (Reference.key_of 2) (Reference.public_key 3) =
      Returns pAB /\
    derive Reference.browser (Reference.key_of 3) (Reference.public_key 2) =
      Returns pBA /\
    (forall c, result_of pAB c = Ok shared) /\
    (forall c, result_of pBA c = Ok shared).
Proof.
  assert (H2 : valid_private (ec Reference.browser) (Reference.key_of 2))
    by (apply reference_key_is_valid; [reflexivity|lia]).
  assert (H3 : valid_private (ec Reference.browser) (Reference.key_of 3))
    by (apply reference_key_is_valid; [reflexivity|lia]).
  split; [exact H2|]. split; [exact H3|].
  apply (@derive_is_symmetric Reference.browser
           (Reference.key_of 2) (Reference.key_of 3)
           (Reference.public_key 2) (Reference.public_key 3) 0 0).
  - apply reference_curve_laws.
  - exact H2.
  - exact H3.
  - vm_compute; reflexivity.
  - vm_compute; reflexivity.
Defined.

(** On the reference curve the point 6 has the X coordinate 223, which is
    a single octet: the derived secret is one octet long, not 32. *)
Lemma derive_returns_minimal_big_endian_x_witness :
  exists p Px,
    derive Reference.browser (Reference.key_of 2) (Reference.public_key 3) =
      Returns p /\
    result_of p 0 = Ok Px /\
    BN_of_bytes Px = 223%N /\
    (forall b, b <> [] -> BN_of_bytes b = 223%N -> length Px <= length b) /\
    (forall k, 0 < k -> (223 < 256 ^ N.of_nat k)%N -> length Px <= k) /\
    ((223 < 256 ^ 31)%N -> length Px < 32).
Proof.
  apply (@derive_returns_minimal_big_endian_x Reference.browser
           (Reference.key_of 2) (Reference.public_key 3) 3%N 223%N 0);
    vm_compute; reflexivity.
Defined.

Example derived_secret_is_one_octet :
  outcome (derive Reference.browser (Reference.key_of 2)
             (Reference.public_key 3)) 0 = Ok [xdf].
Proof. vm_compute. reflexivity. Qed.

(** Without WebCrypto the two calls throw. *)
Lemma encrypt_decrypt_throw_synchronously_without_subtle_witness :
  subtle Reference.old_browser = None /\
  (forall publicKeyTo msg opts,
     encrypt Reference.old_browser publicKeyTo msg opts =
       Throws PrimitiveUnavailable /\
     promise_of (encrypt Reference.old_browser publicKeyTo msg opts) = None) /\
  (forall privateKey opts,
     decrypt Reference.old_browser privateKey opts =
       Throws PrimitiveUnavailable /\
     promise_of (decrypt Reference.old_browser privateKey opts) = None).
Proof.
  split; [reflexivity|].
  apply (@encrypt_decrypt_throw_synchronously_without_subtle
           Reference.old_browser).
  reflexivity.
Defined.

(** An ephemeral key of 31 octets: [encrypt] rejects before any call. *)
Lemma encrypt_rejects_malformed_keys_before_hashing_witness :
  (exists k,
     opt_ephemPrivateKey (options_or_default Reference.short_key_options) =
       Some k /\ length k <> 32) /\
  match encrypt Reference.browser (Reference.public_key 3)
          Reference.test_message Reference.short_key_options with
  | Throws e => e = PrimitiveUnavailable
  | Returns p =>
      (exists e, result_of p 0 = Err e) /\
      filter is_subtle_event (events_of p 0) = [] /\
      (forall k,
         opt_ephemPrivateKey (options_or_default Reference.short_key_options) =
           Some k ->
         length k <> 32 -> p 0 = ([], 0, Err (Error "Bad private key"))) /\
      (forall pub, In (EcGetPublic (Ok pub)) (events_of p 0) ->
         result_of p 0 = Err (Error "Bad public key"))
  end.
Proof.
  assert (H : exists k,
     opt_ephemPrivateKey (options_or_default Reference.short_key_options) =
       Some k /\ length k <> 32).
  { exists (repeat x00 31). split; [reflexivity|]. vm_compute. discriminate. }
  split; [exact H|].
  apply (@encrypt_rejects_malformed_keys_before_hashing Reference.browser
           (Reference.public_key 3) Reference.test_message
           Reference.short_key_options 0).
  left. exact H.
Defined.

(** A public key with the prefix 0x02: [encrypt] rejects after the
    ephemeral public key was computed and before anything is hashed. *)
Example encrypt_rejects_a_compressed_public_key :
  outcome (encrypt Reference.browser (x02 :: Reference.toArray_be 3 32 ++ Reference.toArray_be 10 32)
             Reference.test_message Reference.fixed_options) 0 =
    Err (Error "Bad public key").
Proof. vm_compute. reflexivity. Qed.

(** The spec's examples of malformed input. *)
Example getPublic_rejects_31_and_33_octets :
  result_of (getPublic Reference.browser (repeat x01 31)) 0 =
    Err (Error "Bad private key") /\
  result_of (getPublic Reference.browser (repeat x01 33)) 0 =
    Err (Error "Bad private key").
Proof. split; vm_compute; reflexivity. Qed.

Example sign_rejects_0_and_33_octet_messages :
  outcome (sign Reference.browser (Reference.key_of 3) []) 0 =
    Err (Error "Message should not be empty") /\
  outcome (sign Reference.browser (Reference.key_of 3) (repeat x01 33)) 0 =
    Err (Error "Message is too long").
Proof. split; vm_compute; reflexivity. Qed.

Example verify_rejects_a_prefix_other_than_4 :
  outcome (verify Reference.browser (x02 :: Reference.toArray_be 3 32 ++ Reference.toArray_be 10 32)
             Reference.test_message []) 0 =
    Err (Error "Bad public key").
Proof. vm_compute. reflexivity. Qed.

(** A signature verifies, and a different message does not. *)
Example sign_then_verify :
  exists sig,
    outcome (sign Reference.browser (Reference.key_of 3)
               Reference.test_message) 0 = Ok sig /\
    outcome (verify Reference.browser (Reference.public_key 3)
               Reference.test_message sig) 0 = Ok tt /\
    outcome (verify Reference.browser (Reference.public_key 3)
               [x74; x65; x73; x75] sig) 0 = Err (Error "Bad signature").
Proof. eexists. repeat split; vm_compute; reflexivity. Qed.

(** An envelope whose tag was altered: [decrypt] rejects with "Bad MAC" and
    the cipher is not called; a ciphertext that was altered fares the same. *)
Example tampered_envelope_is_rejected_without_decrypting :
  match outcome (encrypt Reference.browser (Reference.public_key 3)
                   Reference.test_message Reference.fixed_options) 0 with
  | Ok e =>
      let forged := mkEnvelope (iv e) (ephemPublicKey e) (ciphertext e)
                      (x00 :: tl (mac e)) in
      let garbled := mkEnvelope (iv e) (ephemPublicKey e)
                       (ciphertext e ++ [x00]) (mac e) in
      outcome (decrypt Reference.browser (Reference.key_of 3) e) 0 =
        Ok Reference.test_message /\
      outcome (decrypt Reference.browser (Reference.key_of 3) forged) 0 =
        Err BadMac /\
      filter is_decrypt_event
        (events_of (settle (decrypt Reference.browser (Reference.key_of 3)
                              forged)) 0) = [] /\
      outcome (decrypt Reference.browser (Reference.key_of 3) garbled) 0 =
        Err BadMac
  | Err _ => False
  end.
Proof. vm_compute. repeat split. Qed.

(** ** The caller's IV reaches the cipher *)

(** C10, as amended. [encrypt] does not look at the length of a caller's
    IV: with providers that keep their laws and valid keys, for an [iv0] of
    any length the cipher is called with exactly [iv0].  When the cipher
    accepts it, what is signed is [iv0 || ephemPublicKey || ciphertext] and
    the envelope's [iv] is [iv0]; when the cipher refuses it, [encrypt] is
    rejected with the cipher's error, nothing is signed and there is no
    envelope. *)
Theorem caller_iv_of_any_length_is_used_unchanged
    (host : Host) (s : SubtleCrypto) (skB pkB msg : bytes)
    (ephem : option bytes) (iv0 : bytes) (c cB : nat) :
  EllipticLaws (ec host) -> SubtleLaws s -> subtle host = Some s ->
  valid_private (ec host) skB ->
  result_of (getPublic host skB) cB = Ok pkB ->
  valid_private (ec host)
    (ephemeral_key host (mkOptions ephem (Some iv0)) c) ->
  exists p epk cke,
    encrypt host pkB msg (Some (mkOptions ephem (Some iv0))) = Returns p /\
    In (SubtleEncrypt iv0 cke msg (subtle_encrypt s iv0 cke msg))
       (events_of p c) /\
    match subtle_encrypt s iv0 cke msg with
    | Ok ct =>
        exists cks t,
          In (SubtleSign cks (iv0 ++ epk ++ ct) (Ok t)) (events_of p c) /\
          result_of p c = Ok (mkEnvelope iv0 epk ct t)
    | Err e =>
        result_of p c = Err e /\
        forall k d r, ~ In (SubtleSign k d r) (events_of p c)
    end.
Proof.
  intros L LS Hs HB HpB HE.
  (* the recipient's key pair *)
  destruct (@getPublic_of_valid host L _ HB) as (pubB & HrunB & HlB & H4B & HdB).
  unfold result_of in HpB. rewrite HrunB in HpB. injection HpB as <-.
  (* the ephemeral key pair *)
  set (ek := ephemeral_key host (mkOptions ephem (Some iv0)) c) in *.
  destruct HE as [HlE HrE]. destruct HB as [_ HrS].
  destruct (@encode_decode _ L _ HrE) as (epk & HencE & _).
  (* the shared point *)
  pose proof (scalar_product_in_range (order_prime L) HrE HrS) as Hr.
  destruct (@getX_finite _ L _ Hr) as [x Hx].
  assert (HxE : point_getX (ec host)
            (point_mul (ec host)
               (point_mul (ec host) (ec_g (ec host)) (BN_of_bytes skB))
               (BN_of_bytes ek)) = Ok x)
    by now rewrite (mul_mul L).
  (* the keys *)
  destruct (@digest_total s LS (BN_toArray x)) as (h & Hh & Hlh).
  destruct (halves_of_digest h Hlh) as (Hk1 & Hk2 & _).
  change (firstn 32 h) with (slice h 0 32) in Hk1.
  change (skipn 32 h) with (slice_from h 32) in Hk2.
  destruct (@import_aes s LS _ UEncrypt Hk1 (or_introl eq_refl)) as [cke Hcke].
  destruct (@import_hmac s LS _ USign Hk2 (or_introl eq_refl)) as [cks Hcks].
  apply eqb_of_length in HlB, HlE.
  unfold encrypt, subtle_truthy. rewrite Hs. cbn [assert options_or_default].
  eexists. exists epk, cke. split; [reflexivity|].
  unfold_module. subst ek. unfold ephemeral_key in *.
  cbn [opt_ephemPrivateKey opt_iv] in *.
  destruct (subtle_encrypt s iv0 cke msg) as [ct|e] eqn:Hct.
  - destruct (@sign_total s LS _ _ (iv0 ++ epk ++ ct) Hcks) as [t Ht].
    rewrite <- Buffer_concat3 in Ht.
    destruct ephem as [k|];
      repeat (cbn;
              first [ rewrite Hs | rewrite HlE | rewrite HencE | rewrite HlB
                    | rewrite H4B | rewrite HdB | rewrite HxE | rewrite Hh
                    | rewrite Hcke | rewrite Hct | rewrite Hcks | rewrite Ht ]).
    all: rewrite Buffer_concat3.
    all: split; [in_trace|exists cks, t; split; [in_trace|reflexivity]].
  - destruct ephem as [k|];
      repeat (cbn;
              first [ rewrite Hs | rewrite HlE | rewrite HencE | rewrite HlB
                    | rewrite H4B | rewrite HdB | rewrite HxE | rewrite Hh
                    | rewrite Hcke | rewrite Hct ]).
    all: split; [in_trace|split; [reflexivity|]].
    all: intros k' d r Hin; cbn [fst snd] in Hin; trace_inv.
Qed.

(** An IV of three octets, with an AES-CBC that takes any IV: the cipher
    gets the three octets and the envelope carries them. *)
Lemma caller_iv_of_any_length_is_used_unchanged_witness :
  valid_private (ec Reference.lenient_browser) (Reference.key_of 3) /\
  exists p epk cke,
    encrypt Reference.lenient_browser (Reference.public_key 3)
      Reference.test_message
      (Some (mkOptions (Some (Reference.key_of 7)) (Some [x01; x02; x03])))
      = Returns p /\
    In (SubtleEncrypt [x01; x02; x03] cke Reference.test_message
          (subtle_encrypt (Reference.webcrypto false) [x01; x02; x03] cke
             Reference.test_message))
       (events_of p 0) /\
    match subtle_encrypt (Reference.webcrypto false) [x01; x02; x03] cke
            Reference.test_message with
    | Ok ct =>
        exists cks t,
          In (SubtleSign cks ([x01; x02; x03] ++ epk ++ ct) (Ok t))
             (events_of p 0) /\
          result_of p 0 = Ok (mkEnvelope [x01; x02; x03] epk ct t)
    | Err e =>
        result_of p 0 = Err e /\
        forall k d r, ~ In (SubtleSign k d r) (events_of p 0)
    end.
Proof.
  assert (H3 : valid_private (ec Reference.lenient_browser) (Reference.key_of 3))
    by (apply reference_key_is_valid; [reflexivity|lia]).
  split; [exact H3|].
  apply (@caller_iv_of_any_length_is_used_unchanged Reference.lenient_browser
           (Reference.webcrypto false) (Reference.key_of 3)
           (Reference.public_key 3) Reference.test_message
           (Some (Reference.key_of 7)) [x01; x02; x03] 0 0).
  - apply reference_curve_laws.
  - apply reference_webcrypto_laws.
  - reflexivity.
  - exact H3.
  - vm_compute; reflexivity.
  - apply (@reference_key_is_valid Reference.lenient_browser 7);
      [reflexivity|lia].
Defined.

(** C10 as stated fails: with the AES-CBC of WebCrypto, which refuses an IV
    that is not 16 octets long, [encrypt] given a valid key pair and a
    caller's IV of 3 octets is rejected with the cipher's error; no envelope
    is returned, so none has the 3 octets as its [iv], and nothing is
    signed. *)
Lemma caller_iv_of_three_octets_gives_no_envelope :
  valid_private (ec Reference.browser) (Reference.key_of 3) /\
  result_of (getPublic Reference.browser (Reference.key_of 3)) 0 =
    Ok (Reference.public_key 3) /\
  outcome (encrypt Reference.browser (Reference.public_key 3)
             Reference.test_message Reference.short_iv_options) 0 =
    Err (DOMException "OperationError") /\
  (~ exists envelope,
       outcome (encrypt Reference.browser (Reference.public_key 3)
                  Reference.test_message Reference.short_iv_options) 0 =
         Ok envelope /\
       iv envelope = [x01; x02; x03]) /\
  (forall k dataToMac r,
     ~ In (SubtleSign k dataToMac r)
          (events_of (settle (encrypt Reference.browser (Reference.public_key 3)
                                Reference.test_message
                                Reference.short_iv_options)) 0)).
Proof.
  split; [apply reference_key_is_valid; [reflexivity|lia]|].
  split; [vm_compute; reflexivity|].
  assert (H : outcome (encrypt Reference.browser (Reference.public_key 3)
                         Reference.test_message Reference.short_iv_options) 0 =
              Err (DOMException "OperationError"))
    by (vm_compute; reflexivity).
  split; [exact H|]. split.
  - intros (envelope & Henv & _). rewrite H in Henv. discriminate Henv.
  - intros k d r. vm_compute. intro Hin.
    repeat (destruct Hin as [Hin|Hin]; [discriminate Hin|]). exact Hin.
Qed.


(** * Further properties of the module *)

(** ** Validation: which check fails, and with what *)

(** X2. [derive] checks the private key first and the public key second:
    a private key that is not 32 octets long rejects with "Bad private
    key" even when the public key is malformed too, and with a private key
    of 32 octets a public key that is not 65 octets starting with 0x04
    rejects with "Bad public key"; the curve engine is not called. *)
Theorem derive_rejects_malformed_keys
    (host : Host) (privateKeyA publicKeyB : bytes) (c : nat) :
  exists p,
    derive host privateKeyA publicKeyB = Returns p /\
    (length privateKeyA <> 32 ->
     p c = ([], c, Err (Error "Bad private key"))) /\
    (length privateKeyA = 32 ->
     length publicKeyB <> 65 \/ first_byte_is publicKeyB x04 = false ->
     p c = ([], c, Err (Error "Bad public key"))).
Proof.
  eexists. split; [reflexivity|]. split.
  - intro H. apply Nat.eqb_neq in H. unfold_module. now rewrite H.
  - intros Ha Hb. apply eqb_of_length in Ha. unfold_module. rewrite Ha.
    destruct (length publicKeyB =? 65) eqn:E; [|reflexivity].
    destruct Hb as [Hb|Hb]; [apply Nat.eqb_eq in E; contradiction|].
    now rewrite Hb.
Qed.

(** X3. The checks of [sign] and [verify] run in the order of the source and
    the first that fails names the error: for [sign] the private key, then
    the empty message, then the long message; for [verify] the public key
    (length, then prefix), then the empty message, then the long message. *)
Theorem sign_and_verify_report_the_first_failed_check
    (host : Host) (key msg sig : bytes) (c : nat) :
  (length key <> 32 ->
   outcome (sign host key msg) c = Err (Error "Bad private key")) /\
  (length key = 32 -> length msg = 0 ->
   outcome (sign host key msg) c = Err (Error "Message should not be empty")) /\
  (length key = 32 -> 32 < length msg ->
   outcome (sign host key msg) c = Err (Error "Message is too long")) /\
  (length key <> 65 \/ first_byte_is key x04 = false ->
   outcome (verify host key msg sig) c = Err (Error "Bad public key")) /\
  (length key = 65 -> first_byte_is key x04 = true -> length msg = 0 ->
   outcome (verify host key msg sig) c =
     Err (Error "Message should not be empty")) /\
  (length key = 65 -> first_byte_is key x04 = true -> 32 < length msg ->
   outcome (verify host key msg sig) c = Err (Error "Message is too long")).
Proof.
  unfold outcome, sign, verify.
  repeat split.
  - intro H. apply Nat.eqb_neq in H. unfold_module. now rewrite H.
  - intros Hk Hm. apply eqb_of_length in Hk. unfold_module.
    rewrite Hk, Hm. reflexivity.
  - intros Hk Hm. apply eqb_of_length in Hk.
    assert (H1 : (0 <? length msg) = true) by (apply Nat.ltb_lt; lia).
    apply Nat.leb_gt in Hm. unfold_module. rewrite Hk, H1, Hm. reflexivity.
  - intros H. unfold_module.
    destruct (length key =? 65) eqn:E; [|reflexivity].
    destruct H as [H|H]; [apply Nat.eqb_eq in E; contradiction|].
    now rewrite H.
  - intros Hk H4 Hm. apply eqb_of_length in Hk. unfold_module.
    rewrite Hk, H4, Hm. reflexivity.
  - intros Hk H4 Hm. apply eqb_of_length in Hk.
    assert (H1 : (0 <? length msg) = true) by (apply Nat.ltb_lt; lia).
    apply Nat.leb_gt in Hm. unfold_module. rewrite Hk, H4, H1, Hm.
    reflexivity.
Qed.

(** X4. [decrypt] throws synchronously in two cases only: without
    WebCrypto ("WebCryptoAPI is not available"), and, with WebCrypto, when
    [opts] is [undefined], by the [TypeError] of reading
    [opts.ephemPublicKey].  Given an envelope it returns a promise and
    validates through [derive] before anything else: a private key that is
    not 32 octets long rejects with "Bad private key", and an
    [ephemPublicKey] that is not 65 octets starting with 0x04 rejects with
    "Bad public key"; no provider is called, so nothing is hashed, verified
    or decrypted. *)
Theorem decrypt_rejects_malformed_keys_before_any_call
    (host : Host) (privateKey : bytes) (opts : option Envelope) (c : nat) :
  match decrypt_call host privateKey opts with
  | Throws e =>
      (subtle host = None /\ e = PrimitiveUnavailable) \/
      (subtle host <> None /\ opts = None /\ exists m, e = TypeError m)
  | Returns p =>
      subtle host <> None /\
      exists envelope,
        opts = Some envelope /\
        (length privateKey <> 32 ->
         p c = ([], c, Err (Error "Bad private key"))) /\
        (length privateKey = 32 ->
         length (ephemPublicKey envelope) <> 65 \/
         first_byte_is (ephemPublicKey envelope) x04 = false ->
         p c = ([], c, Err (Error "Bad public key")))
  end.
Proof.
  unfold decrypt_call, decrypt, subtle_truthy.
  destruct (subtle host) as [s|] eqn:Hs; cbn [assert].
  2: destruct opts; left; now split.
  destruct opts as [envelope|].
  2: right; repeat split; [discriminate|eexists; reflexivity].
  unfold derive, completion_then. split; [discriminate|].
  exists envelope. split; [reflexivity|]. split.
  - intro H. apply Nat.eqb_neq in H. unfold_module. now rewrite H.
  - intros Ha Hb. apply eqb_of_length in Ha. unfold_module. rewrite Ha.
    destruct (length (ephemPublicKey envelope) =? 65) eqn:E; [|reflexivity].
    destruct Hb as [Hb|Hb]; [apply Nat.eqb_eq in E; contradiction|].
    now rewrite Hb.
Qed.

(** ** What [sign] and [verify] resolve to *)

(** X5. [verify] is fulfilled exactly when its input is well formed and the
    curve engine accepts the signature; when the input is well formed and
    the engine answers [false] it rejects with "Bad signature", after one
    call [ec.verify(msg, sig, publicKey)]. *)
Theorem verify_fulfils_exactly_when_the_engine_accepts
    (host : Host) (publicKey msg sig : bytes) (c : nat) :
  let well_formed :=
    length publicKey = 65 /\ first_byte_is publicKey x04 = true /\
    0 < length msg <= 32 in
  (outcome (verify host publicKey msg sig) c = Ok tt <->
   well_formed /\ ec_verify (ec host) msg sig publicKey = Ok true) /\
  (well_formed -> ec_verify (ec host) msg sig publicKey = Ok false ->
   exists p,
     verify host publicKey msg sig = Returns p /\
     p c = ([EcVerify msg sig publicKey (Ok false)], c,
            Err (Error "Bad signature"))).
Proof.
  cbv zeta. split; [split|].
  - unfold outcome. all_paths; intro H; try discriminate H.
    bool_facts. destruct (length msg); [discriminate|].
    repeat split; try assumption; lia.
  - intros [(Hl & H4 & Hm1 & Hm2) Hv]. unfold outcome.
    apply eqb_of_length in Hl. apply Nat.ltb_lt in Hm1. apply Nat.leb_le in Hm2.
    unfold_module. rewrite Hl, H4, Hm1, Hm2. cbn. rewrite Hv. reflexivity.
  - intros (Hl & H4 & Hm1 & Hm2) Hv. eexists. split; [reflexivity|].
    apply eqb_of_length in Hl. apply Nat.ltb_lt in Hm1. apply Nat.leb_le in Hm2.
    unfold_module. rewrite Hl, H4, Hm1, Hm2. cbn. rewrite Hv. reflexivity.
Qed.

(** X6. [sign] is fulfilled with [der] exactly when its input is well
    formed and [ec.sign(msg, privateKey, {canonical: true}).toDER()] gave
    [der]: the signature is handed on as the engine made it. *)
Theorem sign_fulfils_with_the_engines_signature
    (host : Host) (privateKey msg der : bytes) (c : nat) :
  outcome (sign host privateKey msg) c = Ok der <->
  length privateKey = 32 /\ 0 < length msg <= 32 /\
  ec_sign (ec host) msg privateKey = Ok der.
Proof.
  split.
  - unfold outcome. all_paths; intro H; try discriminate H.
    injection H as <-. bool_facts. destruct (length msg); [discriminate|].
    repeat split; try assumption; lia.
  - intros (Hl & (Hm1 & Hm2) & Hs). unfold outcome.
    apply eqb_of_length in Hl. apply Nat.ltb_lt in Hm1. apply Nat.leb_le in Hm2.
    unfold_module. rewrite Hl, Hm1, Hm2. cbn. rewrite Hs. reflexivity.
Qed.

(** ** Round trips of the parts *)

Lemma reference_ecdsa_laws : EcdsaLaws Reference.curve.
Proof.
  constructor; cbv [Reference.curve ec_sign ec_verify point_encode point_mul ec_g].
  - intros sk msg _ _. eauto.
  - intros sk msg sig pub [Hl _] [= <-] _.
    rewrite skipn_app, Hl, Nat.sub_diag, skipn_all2 by lia.
    cbn [skipn app]. now rewrite bytes_eqb_refl.
Qed.

(** X7. With a curve engine that keeps its laws, a signature made by [sign]
    under a valid private key verifies under the public key [getPublic]
    gives for it: [verify(getPublic(sk), msg, sign(sk, msg))] is fulfilled
    for every message of 1 to 32 octets. *)
Theorem verify_accepts_what_sign_made
    (host : Host) (sk msg : bytes) (c : nat) :
  EllipticLaws (ec host) -> EcdsaLaws (ec host) ->
  valid_private (ec host) sk -> 0 < length msg <= 32 ->
  exists pk sig,
    result_of (getPublic host sk) c = Ok pk /\
    outcome (sign host sk msg) c = Ok sig /\
    outcome (verify host pk msg sig) c = Ok tt.
Proof.
  intros L LD Hsk Hm.
  destruct (@getPublic_of_valid host L _ Hsk) as (pk & Hrun & Hl & H4 & _).
  destruct (@ecdsa_sign_total _ LD sk msg Hsk Hm) as [sig Hsig].
  destruct Hsk as [Hlk Hr].
  destruct (@encode_decode _ L _ Hr) as (pub & Henc & _).
  assert (Hpk : result_of (getPublic host sk) c = Ok pk)
    by (unfold result_of; now rewrite Hrun).
  assert (pub = pk) as ->.
  { generalize (Hrun 0). clear Hrun. unfold_module.
    rewrite (@eqb_of_length _ _ Hlk). cbn. rewrite Henc. cbn.
    intro H0. now injection H0. }
  pose proof (@ecdsa_verify_sign _ LD sk msg sig pk (conj Hlk Hr) Hsig Henc)
    as Hv.
  exists pk, sig. split; [exact Hpk|]. clear Hpk Hrun.
  destruct Hm as [Hm1 Hm2].
  apply eqb_of_length in Hlk, Hl.
  apply Nat.ltb_lt in Hm1. apply Nat.leb_le in Hm2.
  split; unfold outcome; unfold_module.
  - rewrite Hlk, Hm1, Hm2. cbn. rewrite Hsig. reflexivity.
  - rewrite Hl, H4, Hm1, Hm2. cbn. rewrite Hv. reflexivity.
Qed.

Lemma verify_accepts_what_sign_made_witness :
  valid_private (ec Reference.browser) (Reference.key_of 3) /\
  exists pk sig,
    result_of (getPublic Reference.browser (Reference.key_of 3)) 0 = Ok pk /\
    outcome (sign Reference.browser (Reference.key_of 3)
               Reference.test_message) 0 = Ok sig /\
    outcome (verify Reference.browser pk Reference.test_message sig) 0 = Ok tt.
Proof.
  assert (H3 : valid_private (ec Reference.browser) (Reference.key_of 3))
    by (apply reference_key_is_valid; [reflexivity|lia]).
  split; [exact H3|].
  apply (@verify_accepts_what_sign_made Reference.browser
           (Reference.key_of 3) Reference.test_message 0).
  - apply reference_curve_laws.
  - apply reference_ecdsa_laws.
  - exact H3.
  - cbn. lia.
Defined.

(** X8. With a WebCrypto that keeps its laws, [aesCbcDecrypt] undoes
    [aesCbcEncrypt] under the same 32-octet key and 16-octet IV: both
    helpers import the key for AES-CBC and hand the IV and the data to the
    cipher in the same places. *)
Theorem aesCbcDecrypt_inverts_aesCbcEncrypt
    (host : Host) (s : SubtleCrypto) (iv0 key data : bytes) (c : nat) :
  subtle host = Some s -> SubtleLaws s ->
  length key = 32 -> length iv0 = 16 ->
  exists ct,
    result_of (aesCbcEncrypt host iv0 key data) c = Ok ct /\
    result_of (aesCbcDecrypt host iv0 key ct) c = Ok data.
Proof.
  intros Hs LS Hk Hiv.
  destruct (@import_aes s LS key UEncrypt Hk (or_introl eq_refl)) as [cke He].
  destruct (@import_aes s LS key UDecrypt Hk (or_intror eq_refl)) as [ckd Hd].
  destruct (@encrypt_total s LS key cke iv0 data He Hiv) as [ct Hct].
  pose proof (@decrypt_encrypt s LS key cke ckd iv0 data ct He Hd Hct) as Hpt.
  exists ct. unfold_module. rewrite Hs. cbn.
  rewrite He, Hd. cbn. rewrite Hct, Hpt. cbn. split; reflexivity.
Qed.

Lemma aesCbcDecrypt_inverts_aesCbcEncrypt_witness :
  exists ct,
    result_of (aesCbcEncrypt Reference.browser (repeat x2a 16)
                 (Reference.key_of 7) Reference.test_message) 0 = Ok ct /\
    result_of (aesCbcDecrypt Reference.browser (repeat x2a 16)
                 (Reference.key_of 7) ct) 0 = Ok Reference.test_message.
Proof.
  apply (@aesCbcDecrypt_inverts_aesCbcEncrypt Reference.browser
           (Reference.webcrypto true) (repeat x2a 16) (Reference.key_of 7)
           Reference.test_message 0).
  - reflexivity.
  - apply reference_webcrypto_laws.
  - reflexivity.
  - reflexivity.
Defined.

(** X9. With a WebCrypto that keeps its laws, [hmacSha256Verify] accepts
    the tag [hmacSha256Sign] made for the same 32-octet key and the same
    message: the verifying helper passes the tag and the message to
    [subtle.verify] in the order that call expects. *)
Theorem hmacSha256Verify_accepts_hmacSha256Sign
    (host : Host) (s : SubtleCrypto) (key msg : bytes) (c : nat) :
  subtle host = Some s -> SubtleLaws s -> length key = 32 ->
  exists tag,
    result_of (hmacSha256Sign host key msg) c = Ok tag /\
    result_of (hmacSha256Verify host key msg tag) c = Ok true.
Proof.
  intros Hs LS Hk.
  destruct (@import_hmac s LS key USign Hk (or_introl eq_refl)) as [cks Hi].
  destruct (@import_hmac s LS key UVerify Hk (or_intror eq_refl)) as [ckv Hv].
  destruct (@sign_total s LS key cks msg Hi) as [tag Ht].
  pose proof (@verify_sign s LS key cks ckv msg tag Hi Hv Ht) as Hok.
  exists tag. unfold_module. rewrite Hs. cbn.
  rewrite Hi, Hv. cbn. rewrite Ht, Hok. cbn. split; reflexivity.
Qed.

Lemma hmacSha256Verify_accepts_hmacSha256Sign_witness :
  exists tag,
    result_of (hmacSha256Sign Reference.browser (Reference.key_of 7)
                 Reference.test_message) 0 = Ok tag /\
    result_of (hmacSha256Verify Reference.browser (Reference.key_of 7)
                 Reference.test_message tag) 0 = Ok true.
Proof.
  apply (@hmacSha256Verify_accepts_hmacSha256Sign Reference.browser
           (Reference.webcrypto true) (Reference.key_of 7)
           Reference.test_message 0).
  - reflexivity.
  - apply reference_webcrypto_laws.
  - reflexivity.
Defined.

(** ** The random source *)

(** X10. [encrypt] reads the random source for what the caller left out,
    and for nothing else, and uses what it read: without
    [opts.ephemPrivateKey] the first 32 octets read are the ephemeral key,
    the key whose public key is computed first, the only private key handed
    to the curve engine, and the one whose public key the envelope carries;
    without [opts.iv] the 16 octets read after them (the first 16 when the
    key was given) are the IV of the cipher call and of the envelope.  A
    value the caller supplied is not drawn; a run that stops early has drawn
    the key at most. *)
Theorem encrypt_draws_the_key_then_the_iv
    (host : Host) (publicKeyTo msg : bytes) (opts : option Options) (c : nat) :
  match encrypt host publicKeyTo msg opts with
  | Throws e => e = PrimitiveUnavailable
  | Returns p =>
      let o := options_or_default opts in
      let ek := ephemeral_key host o c in
      let key_draw :=
        match opt_ephemPrivateKey o with
        | Some _ => []
        | None => [GetRandomValues ek]
        end in
      let c1 :=
        match opt_ephemPrivateKey o with Some _ => c | None => c + 32 end in
      let iv1 :=
        match opt_iv o with Some iv0 => iv0 | None => tape_read host c1 16 end in
      let iv_draw :=
        match opt_iv o with Some _ => [] | None => [GetRandomValues iv1] end in
      let c2 := match opt_iv o with Some _ => c1 | None => c1 + 16 end in
      let public_of_ek :=
        point_encode (ec host)
          (point_mul (ec host) (ec_g (ec host)) (BN_of_bytes ek)) in
      let draws := filter is_random_event (events_of p c) in
      (draws = key_draw /\ cursor_of p c = c1 \/
       draws = key_draw ++ iv_draw /\ cursor_of p c = c2) /\
      (opt_ephemPrivateKey o = None -> length ek = 32) /\
      (length ek = 32 ->
       exists rest,
         events_of p c =
         key_draw ++ EcKeyFromPrivate ek :: EcGetPublic public_of_ek :: rest) /\
      (forall priv, In (EcKeyFromPrivate priv) (events_of p c) -> priv = ek) /\
      (forall iv' k d r,
         In (SubtleEncrypt iv' k d r) (events_of p c) -> iv' = iv1) /\
      (forall env, result_of p c = Ok env ->
         draws = key_draw ++ iv_draw /\ cursor_of p c = c2 /\
         public_of_ek = Ok (ephemPublicKey env) /\
         iv env = iv1)
  end.
Proof.
  unfold encrypt, subtle_truthy, cursor_of, ephemeral_key.
  destruct (subtle host) as [s|] eqn:Hs; [cbn [assert]|reflexivity].
  name_run c. all_paths; end_run.
  all: cbn [opt_ephemPrivateKey opt_iv app].
  all: repeat match goal with |- _ /\ _ => split end.
  all: try solve [cbn; auto].
  all: try solve [intros; first [discriminate | apply tape_read_length]].
  all: try solve [intros; trace_inv; reflexivity].
  all: try solve [intro Hl; bool_facts; first [contradiction | eexists; reflexivity]].
  all: intros env Henv; try discriminate Henv; injection Henv as <-.
  all: repeat split.
Qed.

(** X11. Only [encrypt] reads the random source, and only [encrypt] and
    [decrypt] call WebCrypto: [getPublic], [sign], [verify] and [derive]
    make calls to the curve engine alone and leave the random source where
    it was, and [decrypt] draws nothing either. *)
Theorem only_encrypt_draws_and_curve_functions_stay_off_webcrypto
    (host : Host) (key msg sig : bytes) (peer : bytes) (env : Envelope)
    (c : nat) :
  let quiet (evs : list event) :=
    filter is_random_event evs = [] /\ filter is_subtle_event evs = [] in
  (quiet (events_of (getPublic host key) c) /\
   cursor_of (getPublic host key) c = c) /\
  (quiet (events_of (settle (sign host key msg)) c) /\
   cursor_of (settle (sign host key msg)) c = c) /\
  (quiet (events_of (settle (verify host key msg sig)) c) /\
   cursor_of (settle (verify host key msg sig)) c = c) /\
  (quiet (events_of (settle (derive host key peer)) c) /\
   cursor_of (settle (derive host key peer)) c = c) /\
  (filter is_random_event (events_of (settle (decrypt host key env)) c) = [] /\
   cursor_of (settle (decrypt host key env)) c = c).
Proof.
  cbv zeta. unfold cursor_of.
  repeat apply conj.
  all: try (name_run c; all_paths; end_run; reflexivity).
  all: all_paths; reflexivity.
Qed.

(** ** What [decrypt] resolves to *)

(** X12. [decrypt] hands the envelope's [iv] and [ciphertext] to the
    cipher and ends as the cipher does: the plaintext it resolves to is the
    cipher's output, an error of the cipher (a bad padding, say) is the
    rejection reason unchanged, and no plaintext comes from anywhere
    else. *)
Theorem decrypt_ends_as_the_cipher_does
    (host : Host) (privateKey : bytes) (opts : Envelope) (c : nat) :
  match decrypt host privateKey opts with
  | Throws e => e = PrimitiveUnavailable
  | Returns p =>
      (forall iv0 k d r,
         In (SubtleDecrypt iv0 k d r) (events_of p c) ->
         iv0 = iv opts /\ d = ciphertext opts /\ result_of p c = r) /\
      (forall m, result_of p c = Ok m ->
         exists k,
           In (SubtleDecrypt (iv opts) k (ciphertext opts) (Ok m))
              (events_of p c))
  end.
Proof.
  unfold decrypt, subtle_truthy.
  destruct (subtle host) as [s|] eqn:Hs; [cbn [assert]|reflexivity].
  unfold completion_then, derive.
  name_run c. all_paths; end_run.
  all: split; [intros iv0 k d r Hin|intros m Hm; try discriminate Hm].
  all: trace_inv; try solve [repeat split; reflexivity].
  all: eexists; in_trace.
Qed.

(** ** Failures of the providers *)

Lemma stops_at_failure_split {A} (host : Host) (r : result A)
    (evs : list event) :
  stops_at_failure host r evs ->
  forall pre e post,
    evs = pre ++ e :: post -> event_failed e = true ->
    post = [] /\
    exists err, event_error host e = Some err /\ r = Err err.
Proof.
  intros H pre. revert evs H.
  induction pre as [|a pre IH]; intros evs H e post -> Hf.
  - destruct H as [H _]. exact (H Hf).
  - destruct H as [_ H]. exact (IH _ H e post eq_refl Hf).
Qed.

(** X13. No function of the module goes on after a failed call to a
    provider, and none replaces the provider's error: in every run of
    [getPublic], [sign], [verify], [derive], [encrypt] and [decrypt], a call
    to the curve engine or to WebCrypto that failed is the last of the
    trace, and the run ends with the error that call raised; for a public
    key that [ec.keyFromPublic] does not decode, that is the error of the
    decoding. *)
Theorem provider_failure_ends_the_run_with_its_error
    (host : Host) (key msg sig peer : bytes) (opts : option Options)
    (env : Envelope) (c : nat) :
  let fails_fast {A} (m : M A) :=
    forall pre e post,
      events_of m c = pre ++ e :: post -> event_failed e = true ->
      post = [] /\
      exists err, event_error host e = Some err /\ result_of m c = Err err in
  fails_fast (getPublic host key) /\
  fails_fast (settle (sign host key msg)) /\
  fails_fast (settle (verify host key msg sig)) /\
  fails_fast (settle (derive host key peer)) /\
  fails_fast (settle (encrypt host peer msg opts)) /\
  fails_fast (settle (decrypt host key env)).
Proof.
  cbv zeta.
  repeat apply conj.
  all: apply stops_at_failure_split.
  all: name_run c; all_paths; end_run; cbn.
  all: repeat match goal with
       | H : ec_decodePoint _ _ = _ |- _ => rewrite H
       | |- _ /\ _ => split
       | |- True => exact I
       | |- false = true -> _ => let H := fresh in intro H; discriminate H
       | |- true = true -> _ => intros _
       | |- @eq (list event) _ _ => reflexivity
       | |- exists _, _ => eexists
       | |- @eq (result _) _ _ => reflexivity
       | |- @eq (option error) _ _ => reflexivity
       end.
Qed.

(** ** Integrity of the envelope *)

Lemma bytes_eqb_eq (a b : bytes) : Reference.bytes_eqb a b = true -> a = b.
Proof.
  revert b. induction a as [|x a IH]; intros [|y b] H; try discriminate H.
  - reflexivity.
  - cbn in H. apply andb_prop in H as [Hx Hab].
    apply Byte.byte_dec_bl in Hx. subst. f_equal. now apply IH.
Qed.

Lemma reference_hmac_laws (strict : bool) : HmacLaws (Reference.webcrypto strict).
Proof.
  constructor; cbv [Reference.webcrypto subtle_verify subtle_sign subtle_importKey].
  - intros. eauto.
  - intros key cks ckv msg t t' Hs Hv [= <-] [= Heq].
    apply bytes_eqb_eq in Heq. subst t'.
    destruct (length key =? 0); [discriminate Hs|].
    injection Hs as <-. injection Hv as <-. reflexivity.
Qed.

(** X14. With providers that keep their laws and an HMAC that, under a key
    imported for verification, accepts no tag but its own, the envelope
    [encrypt] resolves to cannot have its [mac] replaced: [decrypt], given
    that envelope with any other [mac], is rejected with "Bad MAC" and never
    calls the cipher. *)
Theorem envelope_with_another_mac_is_rejected
    (host : Host) (s : SubtleCrypto) (skB pkB m : bytes)
    (opts : option Options) (c cB c' : nat) :
  EllipticLaws (ec host) -> SubtleLaws s -> HmacLaws s ->
  subtle host = Some s ->
  valid_private (ec host) skB ->
  result_of (getPublic host skB) cB = Ok pkB ->
  valid_private (ec host) (ephemeral_key host (options_or_default opts) c) ->
  (forall iv0, opt_iv (options_or_default opts) = Some iv0 -> length iv0 = 16) ->
  match outcome (encrypt host pkB m opts) c with
  | Err _ => False
  | Ok env =>
      forall mac', mac' <> mac env ->
      let forged :=
        mkEnvelope (iv env) (ephemPublicKey env) (ciphertext env) mac' in
      outcome (decrypt host skB forged) c' = Err BadMac /\
      filter is_decrypt_event
        (events_of (settle (decrypt host skB forged)) c') = []
  end.
Proof.
  intros L LS LH Hs HB HpB HE Hiv.
  remember (options_or_default opts) as o eqn:Ho.
  (* the recipient's key pair *)
  destruct (@getPublic_of_valid host L _ HB) as (pubB & HrunB & HlB & H4B & HdB).
  unfold result_of in HpB. rewrite HrunB in HpB. injection HpB as <-.
  (* the ephemeral key pair *)
  set (ek := ephemeral_key host o c) in *.
  destruct HE as [HlE HrE]. destruct HB as [HlS HrS].
  destruct (@encode_decode _ L _ HrE) as (epk & HencE & HlP & H4P & HdP).
  (* the shared point, from either side *)
  pose proof (scalar_product_in_range (order_prime L) HrE HrS) as Hr.
  destruct (@getX_finite _ L _ Hr) as [x Hx].
  assert (HxE : point_getX (ec host)
            (point_mul (ec host)
               (point_mul (ec host) (ec_g (ec host)) (BN_of_bytes skB))
               (BN_of_bytes ek)) = Ok x)
    by now rewrite (mul_mul L).
  assert (HxD : point_getX (ec host)
            (point_mul (ec host)
               (point_mul (ec host) (ec_g (ec host)) (BN_of_bytes ek))
               (BN_of_bytes skB)) = Ok x)
    by now rewrite (mul_mul L), N.mul_comm.
  (* the keys *)
  destruct (@digest_total s LS (BN_toArray x)) as (h & Hh & Hlh).
  destruct (halves_of_digest h Hlh) as (Hk1 & Hk2 & _).
  change (firstn 32 h) with (slice h 0 32) in Hk1.
  change (skipn 32 h) with (slice_from h 32) in Hk2.
  destruct (@import_aes s LS _ UEncrypt Hk1 (or_introl eq_refl)) as [cke Hcke].
  destruct (@import_hmac s LS _ USign Hk2 (or_introl eq_refl)) as [cks Hcks].
  destruct (@import_hmac s LS _ UVerify Hk2 (or_intror eq_refl)) as [ckv Hckv].
  (* the IV, the ciphertext and the tag *)
  set (c1 := match opt_ephemPrivateKey o with Some _ => c | None => c + 32 end).
  set (iv1 := match opt_iv o with Some i => i | None => tape_read host c1 16 end).
  assert (Hl1 : length iv1 = 16) by (apply chosen_iv_length; exact Hiv).
  destruct (@encrypt_total s LS _ _ _ m Hcke Hl1) as [ct Hct].
  destruct (@sign_total s LS _ _ (iv1 ++ epk ++ ct) Hcks) as [t Ht].
  pose proof (fun t' => @verify_exact s LH _ _ _ _ _ t' Hcks Hckv Ht) as Hexact.
  apply eqb_of_length in HlS, HlB, HlP, HlE.
  (* what [encrypt] resolves to *)
  assert (Henv : outcome (encrypt host pubB m opts) c =
                 Ok (mkEnvelope iv1 epk ct t)).
  { unfold outcome, encrypt, subtle_truthy.
    rewrite Hs, <- Ho. cbn [assert].
    unfold_module. rewrite <- Buffer_concat3 in Ht.
    subst ek c1 iv1. unfold ephemeral_key in *.
    destruct (opt_ephemPrivateKey o) as [k|]; destruct (opt_iv o) as [i|];
      repeat (cbn;
              first [ rewrite Hs | rewrite HlE | rewrite HencE | rewrite HlB
                    | rewrite H4B | rewrite HdB | rewrite HxE | rewrite Hh
                    | rewrite Hcke | rewrite Hct | rewrite Hcks | rewrite Ht ]);
      reflexivity. }
  rewrite Henv. cbn [iv ephemPublicKey ciphertext mac].
  intros mac' Hne.
  destruct (@verify_total s LH _ ckv mac' (iv1 ++ epk ++ ct) Hckv) as [b Hb].
  destruct b; [exfalso; apply Hne; now apply Hexact|].
  rewrite <- Buffer_concat3 in Hb.
  cbv zeta. unfold outcome, decrypt, subtle_truthy.
  rewrite Hs. cbn [assert completion_then settle].
  unfold_module.
  repeat (cbn;
          first [ rewrite Hs | rewrite HlS | rewrite HlP | rewrite H4P
                | rewrite HdP | rewrite HxD | rewrite Hh | rewrite Hckv
                | rewrite Hb ]).
  split; reflexivity.
Qed.

Lemma envelope_with_another_mac_is_rejected_witness :
  valid_private (ec Reference.browser) (Reference.key_of 3) /\
  match outcome (encrypt Reference.browser (Reference.public_key 3)
                   Reference.test_message Reference.fixed_options) 0 with
  | Err _ => False
  | Ok env =>
      forall mac', mac' <> mac env ->
      let forged :=
        mkEnvelope (iv env) (ephemPublicKey env) (ciphertext env) mac' in
      outcome (decrypt Reference.browser (Reference.key_of 3) forged) 0 =
        Err BadMac /\
      filter is_decrypt_event
        (events_of (settle (decrypt Reference.browser (Reference.key_of 3)
                              forged)) 0) = []
  end.
Proof.
  assert (H3 : valid_private (ec Reference.browser) (Reference.key_of 3))
    by (apply reference_key_is_valid; [reflexivity|lia]).
  split; [exact H3|].
  apply (@envelope_with_another_mac_is_rejected Reference.browser
           (Reference.webcrypto true) (Reference.key_of 3)
           (Reference.public_key 3) Reference.test_message
           Reference.fixed_options 0 0 0).
  - apply reference_curve_laws.
  - apply reference_webcrypto_laws.
  - apply reference_hmac_laws.
  - reflexivity.
  - exact H3.
  - vm_compute; reflexivity.
  - apply (@reference_key_is_valid Reference.browser 7); [reflexivity|lia].
  - intros iv0 H. injection H as <-. reflexivity.
Defined.
